(** * Philodo -> Shopify CSV scraper: a shallow embedding and its properties

    The program under study is the script [philodo_to_shopify.py] that
    [Main.py] writes out.  It fetches product pages, extracts a few fields
    from the parsed page and from its JSON-LD blocks, and maps each product
    to the rows of a Shopify import file.

    Conventions of the embedding.

    - A Python [str] is a Rocq [string]; one character is one code point,
      so the model covers the code points below 256.  Case mapping and the
      white-space class are Python's, restricted to that range.
    - A value built by [json.loads] (and the Python [None]) is a [json].
    - The libraries the script calls ([requests], [bs4], [json], [csv]) are
      not part of the repository.  A page is represented by the answers the
      parsed document gives to the queries the script issues ([Soup]); the
      network is an oracle in the [World]; a file is the list of rows
      written to it.
    - Code that prints, sleeps, fetches or can raise lives in the monad [M]
      (state passing over [World], result or exception). *)

From Stdlib Require Import String Ascii ZArith QArith List Bool Lia.
From Stdlib Require Import DecimalString Lqa.
From stdpp Require Import gmap strings list fin_maps sorting.

Local Open Scope string_scope.
Local Open Scope list_scope.
Set Warnings "-register-all".

(* ===================================================================== *)
(** * Python strings                                                      *)
(* ===================================================================== *)

Module PyStr.

Definition code (c : ascii) : nat := nat_of_ascii c.

Definition between (lo hi : nat) (c : ascii) : bool :=
  (lo <=? code c)%nat && (code c <=? hi)%nat.

Definition nl : ascii := ascii_of_nat 10.
Definition hyphen : ascii := ascii_of_nat 45.
Definition space : ascii := ascii_of_nat 32.
Definition comma : ascii := ascii_of_nat 44.

(** [str.isspace] for one character, which is also the class [\s] of [re]
    on [str] patterns: TAB..CR, FS..US, space, NEL and NBSP. *)
Definition is_space (c : ascii) : bool :=
  between 9 13 c || between 28 31 c || (code c =? 32)%nat
  || (code c =? 133)%nat || (code c =? 160)%nat.

(** [str.lower] on one character: A-Z, and the Latin-1 capitals
    U+00C0..U+00DE without the multiplication sign U+00D7. *)
Definition lower_char (c : ascii) : ascii :=
  if between 65 90 c || (between 192 222 c && negb (code c =? 215)%nat)
  then ascii_of_nat (code c + 32)
  else c.

Fixpoint lower (s : string) : string :=
  match s with
  | EmptyString => EmptyString
  | String c s' => String (lower_char c) (lower s')
  end.

(** [s.startswith(p)] *)
Fixpoint startswith (p s : string) : bool :=
  match p, s with
  | EmptyString, _ => true
  | String a p', String b s' => Ascii.eqb a b && startswith p' s'
  | String _ _, EmptyString => false
  end.

(** [needle in hay] *)
Fixpoint contains (needle hay : string) : bool :=
  startswith needle hay ||
  match hay with
  | EmptyString => false
  | String _ hay' => contains needle hay'
  end.

(** [s.lstrip(chars)], [s.rstrip(chars)], [s.strip(chars)], the character
    set given as a predicate. *)
Fixpoint lstrip_by (p : ascii -> bool) (s : string) : string :=
  match s with
  | EmptyString => EmptyString
  | String c s' => if p c then lstrip_by p s' else s
  end.

Fixpoint rstrip_by (p : ascii -> bool) (s : string) : string :=
  match s with
  | EmptyString => EmptyString
  | String c s' =>
      match rstrip_by p s' with
      | EmptyString => if p c then EmptyString else String c EmptyString
      | r => String c r
      end
  end.

Definition strip_by (p : ascii -> bool) (s : string) : string :=
  rstrip_by p (lstrip_by p s).

(** [s.strip()] *)
Definition strip (s : string) : string := strip_by is_space s.

(** [s.split(sep)] for a one-character separator: never an empty list. *)
Fixpoint split (sep : ascii) (s : string) : list string :=
  match s with
  | EmptyString => [EmptyString]
  | String c s' =>
      if Ascii.eqb c sep then EmptyString :: split sep s'
      else match split sep s' with
           | [] => [String c EmptyString]
           | w :: ws => String c w :: ws
           end
  end.

(** [sep.join(parts)] *)
Fixpoint join (sep : string) (parts : list string) : string :=
  match parts with
  | [] => EmptyString
  | [x] => x
  | x :: rest => x +:+ sep +:+ join sep rest
  end.

(** [bool(s)] *)
Definition nonempty (s : string) : bool :=
  match s with EmptyString => false | _ => true end.

(** [str(n)] for a natural number and for an integer. *)
Definition of_nat (n : nat) : string := NilEmpty.string_of_uint (Nat.to_uint n).
Definition of_Z (z : Z) : string := NilZero.string_of_int (Z.to_int z).

(** Every character of [s] satisfies [p]. *)
Fixpoint all_chars (p : ascii -> bool) (s : string) : bool :=
  match s with
  | EmptyString => true
  | String c s' => p c && all_chars p s'
  end.

Definition first_char (s : string) : option ascii :=
  match s with EmptyString => None | String c _ => Some c end.

Fixpoint last_char (s : string) : option ascii :=
  match s with
  | EmptyString => None
  | String c EmptyString => Some c
  | String _ s' => last_char s'
  end.

End PyStr.

(* ===================================================================== *)
(** * The regular expressions of the script                               *)
(* ===================================================================== *)

Module Re.
Import PyStr.

(** The class [[a-z0-9\-]]. *)
Definition slug_char (c : ascii) : bool :=
  between 97 122 c || between 48 57 c || (code c =? 45)%nat.

(** [re.sub(r"[^a-z0-9\-]+", "-", s)]: the matches of a greedy [+] taken
    from left to right are the maximal runs of characters outside the
    class; [in_run] tells that the previous character was part of the run
    being replaced. *)
Fixpoint sub_nonslug_from (in_run : bool) (s : string) : string :=
  match s with
  | EmptyString => EmptyString
  | String c s' =>
      if slug_char c then String c (sub_nonslug_from false s')
      else if in_run then sub_nonslug_from true s'
      else String hyphen (sub_nonslug_from true s')
  end.

Definition sub_nonslug (s : string) : string := sub_nonslug_from false s.

End Re.

(* ===================================================================== *)
(** * Configuration                                                       *)
(* ===================================================================== *)

Definition PRODUCT_URLS : list string := [].

Definition DEFAULT_VENDOR : string := "Philodo".
Definition DEFAULT_PRODUCT_TYPE : string :=
  "Sporting Goods > Outdoor Recreation > Cycling > Electric Bicycles".
Definition DEFAULT_TAGS : list string := ["e-bike"; "dual motor"; "fat tire"; "60V"].
Definition OUTPUT_CSV : string := "shopify_products.csv".
Definition MAX_RETRIES : nat := 3.
Definition RETRY_SLEEP : Q := 3 # 2.

(** Step 8 of [parse_product]:
    [handle = re.sub(r"[^a-z0-9\-]+", "-", title.lower()).strip("-")], then
    the brand is put in front when ["philodo" not in handle]. *)
Definition is_hyphen (c : ascii) : bool := Ascii.eqb c PyStr.hyphen.

Definition slug (title : string) : string :=
  PyStr.strip_by is_hyphen (Re.sub_nonslug (PyStr.lower title)).

Definition make_handle (title : string) : string :=
  let handle := slug title in
  if negb (PyStr.contains "philodo" handle) then "philodo-" +:+ handle else handle.

(* ===================================================================== *)
(** * Python values                                                       *)
(* ===================================================================== *)

(** What [json.loads] returns: [None], a [bool], a number (integers in this
    model), a [str], a [list], or a [dict] given by the members of the object
    in the order of the text. *)
Inductive json : Type :=
  | JNull
  | JBool (b : bool)
  | JNum (n : Z)
  | JStr (s : string)
  | JArr (items : list json)
  | JObj (members : list (string * json)).

Coercion JStr : string >-> json.

(** [bool(v)] *)
Definition truthy (v : json) : bool :=
  match v with
  | JNull => false
  | JBool b => b
  | JNum n => negb (n =? 0)%Z
  | JStr s => PyStr.nonempty s
  | JArr items => match items with [] => false | _ => true end
  | JObj members => match members with [] => false | _ => true end
  end.

(** [a or b] *)
Definition py_or (a b : json) : json := if truthy a then a else b.

(** [d.update(members)]: each member is stored in turn, so a key that occurs
    twice keeps its last value. *)
Definition dict_update (d : gmap string json) (members : list (string * json))
  : gmap string json :=
  fold_left (fun acc kv => <[kv.1 := kv.2]> acc) members d.

(** The [dict] that [json.loads] builds for an object. *)
Definition dict_of (members : list (string * json)) : gmap string json :=
  dict_update ∅ members.

(** [d.get(k)]: [None] when the key is absent. *)
Definition dict_get (k : string) (d : gmap string json) : json :=
  default JNull (d !! k).

(** The exceptions that pass through the modelled code: the
    [AttributeError] of a method call on a value that has no such method;
    the [ParserRejectedMarkup] of [BeautifulSoup]; and any other exception
    of a library, by the name of its class (the [LocationParseError] of
    urllib3, for one). *)
Inductive exn : Type :=
  | AttributeError (attr : string)
  | ParserRejectedMarkup
  | LibraryError (class_name : string).

(** [v.get(k)] on an arbitrary value: only a [dict] has the method. *)
Definition method_get (v : json) (k : string) : exn + json :=
  match v with
  | JObj members => inr (dict_get k (dict_of members))
  | _ => inl (AttributeError "get")
  end.

(* ===================================================================== *)
(** * The parsed page                                                     *)
(* ===================================================================== *)

(** An [<img>] element, by the four attributes the script reads
    ([img.get(name)] is [None] when the attribute is absent). *)
Record Img : Type := {
  src : option string;
  data_src : option string;
  data_original : option string;
  srcset : option string;
}.

(** A [<script type="application/ld+json">] element, by what the three
    first statements of the loop body of [extract_json_ld] make of it:
    [tag.string or tag.text] is empty; [json.loads] raises; or it returns
    [block]. *)
Inductive LdScript : Type :=
  | NoContent
  | Unparseable
  | Parsed (block : json).

(** A heading matched by
    [find_all(["h2","h3","h4"], string=re.compile(r"(spec|feature)", re.I))]:
    [str(start)] and, for each element of [start.find_next_siblings()], its
    [name] and its [str]. *)
Record Heading : Type := {
  heading_html : string;
  next_siblings : list (string * string);
}.

(** The document, by the answers to the queries of the script. *)
Record Soup : Type := {
  (** [soup.title.string] when [soup.title and soup.title.string] *)
  title_string : option string;
  (** [h1.get_text(strip=True)] for [h1 = soup.find("h1")] *)
  h1_text : option string;
  (** [soup.find_all("script", {"type": "application/ld+json"})] *)
  ld_scripts : list LdScript;
  (** [str(soup.find(attrs={"class": re.compile(...)}))] *)
  desc_container : option string;
  (** the headings matching "spec" or "feature" *)
  spec_headings : list Heading;
  (** [soup.find("meta", {"property": "product:price:amount"})], by its
      [content] attribute *)
  meta_price_amount : option (option string);
  (** [soup.find("meta", {"name": "price"})], by its [content] attribute *)
  meta_price : option (option string);
  (** [soup.find_all("img")] *)
  imgs : list Img;
}.

(* ===================================================================== *)
(** * Extractors                                                          *)
(* ===================================================================== *)

(** [extract_json_ld] *)
Definition merge_block (data : gmap string json) (b : json) : gmap string json :=
  match b with
  | JObj members => dict_update data members
  | _ => data
  end.

Definition normalize_blocks (block : json) : list json :=
  match block with
  | JArr items => items
  | _ => [block]
  end.

Definition json_ld_step (data : gmap string json) (tag : LdScript)
  : gmap string json :=
  match tag with
  | NoContent => data
  | Unparseable => data
  | Parsed block => fold_left merge_block (normalize_blocks block) data
  end.

Definition extract_json_ld (scripts : list LdScript) : gmap string json :=
  fold_left json_ld_step scripts ∅.

(** [extract_images] *)
Definition attr_truthy (a : option string) : bool :=
  match a with
  | Some s => PyStr.nonempty s
  | None => false
  end.

Definition attr_or (a b : option string) : option string :=
  if attr_truthy a then a else b.

Definition SKIP_WORDS : list string :=
  ["logo"; "icon"; "spinner"; "placeholder"; "svg"].

Definition is_irrelevant (s : string) : bool :=
  existsb (fun x => PyStr.contains x (PyStr.lower s)) SKIP_WORDS.

(** [[s.split(" ")[0] for s in srcset.split(",") if s.strip()]] *)
Definition srcset_candidates (srcset : string) : list string :=
  map (fun s => hd EmptyString (PyStr.split PyStr.space s))
      (filter (fun s => PyStr.nonempty (PyStr.strip s) = true)
              (PyStr.split PyStr.comma srcset)).

(** [img.get("src") or img.get("data-src") or img.get("data-original")] *)
Definition chosen_src (img : Img) : option string :=
  attr_or (attr_or (src img) (data_src img)) (data_original img).

(** The body of the first loop for one element: [None] for [continue],
    otherwise the URL that is appended. *)
Definition img_url (img : Img) : option string :=
  match chosen_src img with
  | None => None
  | Some s =>
      if negb (PyStr.nonempty s) then None
      else if is_irrelevant s then None
      else
        match srcset img with
        | Some ss =>
            if PyStr.nonempty ss then
              match last (srcset_candidates ss) with
              | Some c => Some c
              | None => Some s
              end
            else Some s
        | None => Some s
        end
  end.

Definition collect_urls (imgs : list Img) : list string :=
  fold_left (fun urls img =>
               match img_url img with
               | Some u => urls ++ [u]
               | None => urls
               end) imgs [].

(** The second loop: [seen] and [deduped]. *)
Definition dedupe_step (st : gset string * list string) (u : string)
  : gset string * list string :=
  if decide (u ∈ st.1) then st else ({[u]} ∪ st.1, st.2 ++ [u]).

Definition dedupe (urls : list string) : list string :=
  (fold_left dedupe_step urls (∅, [])).2.

Definition extract_images (imgs : list Img) : list string :=
  take 12 (dedupe (collect_urls imgs)).

(** [extract_specs_block] *)
Definition is_heading_name (name : string) : bool :=
  existsb (String.eqb name) ["h2"; "h3"; "h4"].

Definition is_kept_name (name : string) : bool :=
  existsb (String.eqb name) ["p"; "ul"; "ol"; "table"; "div"].

(** The loop over the siblings, with its two [break]s. *)
Fixpoint gather_siblings (parts : list string) (sibs : list (string * string))
  : list string :=
  match sibs with
  | [] => parts
  | (name, html) :: rest =>
      if is_heading_name name then parts
      else
        let parts' := if is_kept_name name then parts ++ [html] else parts in
        if (12000 <? Z.of_nat (String.length (PyStr.join EmptyString parts')))%Z then parts'
        else gather_siblings parts' rest
  end.

Definition newline : string := String PyStr.nl EmptyString.

Definition extract_specs_block (headings : list Heading) : option string :=
  match headings with
  | [] => None
  | start :: _ =>
      let parts := gather_siblings [heading_html start] (next_siblings start) in
      let html := PyStr.join newline parts in
      if PyStr.nonempty html && (50 <? Z.of_nat (String.length html))%Z
      then Some html else None
  end.

(** [clean_html_text] *)
Module Clean.
Import PyStr.

(** The part of [s] after its last newline, when it has one. *)
Fixpoint after_last_nl (s : string) : option string :=
  match s with
  | EmptyString => None
  | String c s' =>
      match after_last_nl s' with
      | Some r => Some r
      | None => if Ascii.eqb c nl then Some s' else None
      end
  end.

(** [re.sub(r"\s+\n", "\n", _)] inside one maximal run of white space: the
    greedy [\s+] backtracks to the last newline of the run, which must not
    be the first character of the run; what follows it has no newline and
    is kept. *)
Definition fix_run (run : string) : string :=
  match run with
  | EmptyString => EmptyString
  | String c rest =>
      match after_last_nl rest with
      | Some r => String nl r
      | None => run
      end
  end.

(** [pending] is the run of white space read so far. *)
Fixpoint sub_space_nl_from (pending s : string) : string :=
  match s with
  | EmptyString => fix_run pending
  | String c s' =>
      if is_space c then sub_space_nl_from (pending +:+ String c EmptyString) s'
      else fix_run pending +:+ String c (sub_space_nl_from EmptyString s')
  end.

Definition sub_space_nl (s : string) : string := sub_space_nl_from EmptyString s.

Fixpoint newlines (n : nat) : string :=
  match n with
  | O => EmptyString
  | S n' => String nl (newlines n')
  end.

(** [re.sub(r"\n{3,}", "\n\n", _)]: [n] newlines have just been read. *)
Definition emit_newlines (n : nat) : string :=
  if (3 <=? n)%nat then newlines 2 else newlines n.

Fixpoint sub_blank_lines_from (n : nat) (s : string) : string :=
  match s with
  | EmptyString => emit_newlines n
  | String c s' =>
      if Ascii.eqb c nl then sub_blank_lines_from (S n) s'
      else emit_newlines n +:+ String c (sub_blank_lines_from 0 s')
  end.

Definition sub_blank_lines (s : string) : string := sub_blank_lines_from 0 s.

End Clean.

Definition clean_html_text (text : string) : string :=
  let text := Clean.sub_space_nl text in
  let text := Clean.sub_blank_lines text in
  PyStr.strip text.

(* ===================================================================== *)
(** * The product record and its rows                                     *)
(* ===================================================================== *)

(** The dataclass [ProductData].  The four optional fields hold whatever
    [parse_product] stores in them: [None] or a value taken from the
    JSON-LD data. *)
Record ProductData : Type := {
  handle : string;
  title : string;
  body_html : string;
  vendor : string;
  product_type : string;
  tags : list string;
  images : list string;
  price : json;
  compare_at_price : json;
  sku : json;
  grams : json;
  weight_unit : string;
  requires_shipping : bool;
  taxable : bool;
  published : bool;
  option1_name : string;
  option1_value : string;
}.

Definition CSV_HEADERS : list string := [
  "Handle"; "Title"; "Body (HTML)"; "Vendor"; "Standard Product Type"; "Tags"; "Published";
  "Option1 Name"; "Option1 Value"; "Variant SKU"; "Variant Grams"; "Variant Inventory Tracker";
  "Variant Inventory Policy"; "Variant Fulfillment Service"; "Variant Price"; "Variant Compare At Price";
  "Variant Requires Shipping"; "Variant Taxable"; "Variant Weight Unit"; "Image Src"; "Image Position";
  "Image Alt Text"; "SEO Title"; "SEO Description"; "Google Product Category"
].

Definition bool_cell (b : bool) : string := if b then "TRUE" else "FALSE".

(** [enumerate(l, start)] *)
Fixpoint enumerate {A : Type} (start : nat) (l : list A) : list (nat * A) :=
  match l with
  | [] => []
  | x :: rest => (start, x) :: enumerate (S start) rest
  end.

(** The first row.  The en dash of the SEO description is U+2013, written
    here by the three bytes of its UTF-8 form. *)
Definition base_row (p : ProductData) : list json :=
  let first_img := match images p with img :: _ => img | [] => EmptyString end in
  [ JStr (handle p);
    JStr (title p);
    JStr (body_html p);
    JStr (vendor p);
    JStr "";
    JStr (PyStr.join "," (tags p));
    JStr (bool_cell (published p));
    JStr (option1_name p);
    JStr (option1_value p);
    py_or (sku p) (JStr "");
    py_or (grams p) (JStr "");
    JStr "shopify";
    JStr "deny";
    JStr "manual";
    py_or (price p) (JStr "");
    py_or (compare_at_price p) (JStr "");
    JStr (bool_cell (requires_shipping p));
    JStr (bool_cell (taxable p));
    JStr (weight_unit p);
    JStr first_img;
    JStr (if PyStr.nonempty first_img then "1" else "");
    JStr (title p);
    JStr ("Buy " +:+ title p +:+ " by " +:+ vendor p +:+ " – dual motor e-bike, fast shipping.");
    JStr "Sporting Goods > Outdoor Recreation > Cycling > Electric Bicycles"
  ].

(** A row of the second loop. *)
Definition image_row (p : ProductData) (idx : nat) (img : string) : list json :=
  [ JStr (handle p); JStr ""; JStr ""; JStr ""; JStr ""; JStr ""; JStr ""; JStr ""; JStr ""; JStr "";
    JStr ""; JStr ""; JStr ""; JStr ""; JStr ""; JStr ""; JStr ""; JStr ""; JStr "";
    JStr img; JStr (PyStr.of_nat idx); JStr ""; JStr ""; JStr ""; JStr "" ].

Definition product_to_rows (p : ProductData) : list (list json) :=
  let rows := [base_row p] in
  fold_left (fun rows '(idx, img) => rows ++ [image_row p idx img])
            (enumerate 2 (tail (images p))) rows.

(* ===================================================================== *)
(** * The world, and the monad of the effectful code                      *)
(* ===================================================================== *)

(** A [requests.Response], by its status and by what
    [BeautifulSoup(resp.text, "html.parser")] does with its text: the parser
    returns the document, or it raises ([ParserRejectedMarkup] on markup
    that it rejects). *)
Record Response : Type := {
  status_code : Z;
  parsed : exn + Soup;
}.

(** What one call of [requests.get] does: it returns; it raises a
    [requests.RequestException] with a message; or it raises an exception
    of another class, which the [except] clause of [get] does not name.
    One call is one attempt: the library follows redirects, and the HTTP
    requests that it sends for one call are not told apart. *)
Inductive outcome : Type :=
  | Returns (resp : Response)
  | RequestException (msg : string)
  | Raises (e : exn).

(** [Requested url] is one call of [requests.get]. *)
Inductive event : Type :=
  | Printed (line : string)
  | Requested (url : string)
  | Slept (seconds : Q).

(** [server url k] is the outcome of a call of [requests.get] for [url]
    when [k] calls have been made before; [trace] is in chronological order; [files] maps
    a file name to the rows written to it. *)
Record World : Type := {
  server : string -> nat -> outcome;
  requests_made : nat;
  trace : list event;
  files : gmap string (list (list json));
}.

Definition M (A : Type) : Type := World -> (exn + A) * World.

Definition ret {A : Type} (a : A) : M A := fun w => (inr a, w).

Definition raise {A : Type} (e : exn) : M A := fun w => (inl e, w).

Definition bind {A B : Type} (m : M A) (k : A -> M B) : M B :=
  fun w =>
    match m w with
    | (inr a, w') => k a w'
    | (inl e, w') => (inl e, w')
    end.

Notation "x <- m ;; k" := (bind m (fun x => k))
  (at level 100, m at next level, right associativity).
Notation "m ;;; k" := (bind m (fun _ => k))
  (at level 100, right associativity).

Definition lift {A : Type} (r : exn + A) : M A := fun w => (r, w).

Definition emit (e : event) : M unit :=
  fun w => (inr tt, {| server := server w; requests_made := requests_made w;
                       trace := trace w ++ [e]; files := files w |}).

(** [print(line)] *)
Definition print (line : string) : M unit := emit (Printed line).

(** [time.sleep(seconds)] *)
Definition sleep (seconds : Q) : M unit := emit (Slept seconds).

(** [requests.get(url, headers=HEADERS, timeout=REQUEST_TIMEOUT)]: one
    call, with the redirects that the library follows inside it. *)
Definition requests_get (url : string) : M outcome :=
  fun w => (inr (server w url (requests_made w)),
            {| server := server w; requests_made := S (requests_made w);
               trace := trace w ++ [Requested url]; files := files w |}).

(** [open(name, "w", ...)]: the file exists and is empty afterwards. *)
Definition open_w (name : string) : M unit :=
  fun w => (inr tt, {| server := server w; requests_made := requests_made w;
                       trace := trace w; files := <[name := []]> (files w) |}).

(** [writer.writerow(row)] on the writer of the file [name]. *)
Definition writerow (name : string) (row : list json) : M unit :=
  fun w => (inr tt, {| server := server w; requests_made := requests_made w;
                       trace := trace w;
                       files := <[name := default [] (files w !! name) ++ [row]]> (files w) |}).

(** [for x in l: body(x)] *)
Fixpoint for_each {A : Type} (l : list A) (body : A -> M unit) : M unit :=
  match l with
  | [] => ret tt
  | x :: rest => body x ;;; for_each rest body
  end.

(* ===================================================================== *)
(** * The fetcher                                                         *)
(* ===================================================================== *)

Definition attempt_suffix (attempt : nat) : string :=
  " (attempt " +:+ PyStr.of_nat attempt +:+ "/" +:+ PyStr.of_nat MAX_RETRIES +:+ ")".

(** The loop of [get] over the attempts that remain; after the loop, the
    error line and [return None]. *)
Fixpoint get_attempts (url : string) (attempts : list nat) : M (option Response) :=
  match attempts with
  | [] =>
      print ("[ERROR] Failed to GET " +:+ url +:+ " after "
             +:+ PyStr.of_nat MAX_RETRIES +:+ " attempts.") ;;;
      ret None
  | attempt :: rest =>
      r <- requests_get url ;;
      match r with
      | Returns resp =>
          if (status_code resp =? 200)%Z then ret (Some resp)
          else
            print ("[WARN] " +:+ url +:+ " returned status "
                   +:+ PyStr.of_Z (status_code resp) +:+ attempt_suffix attempt) ;;;
            sleep (RETRY_SLEEP * inject_Z (Z.of_nat attempt)) ;;;
            get_attempts url rest
      | RequestException msg =>
          print ("[WARN] Request error for " +:+ url +:+ ": " +:+ msg
                 +:+ attempt_suffix attempt) ;;;
          sleep (RETRY_SLEEP * inject_Z (Z.of_nat attempt)) ;;;
          get_attempts url rest
      | Raises e => raise e
      end
  end.

(** [get]: [range(1, MAX_RETRIES + 1)] *)
Definition get (url : string) : M (option Response) :=
  get_attempts url (seq 1 MAX_RETRIES).

(* ===================================================================== *)
(** * The per-URL extraction and the main loop                            *)
(* ===================================================================== *)

Section Program.

(** What an f-string substitutes for a value that is not a [str]: Python's
    [repr] of numbers, lists and dicts, which the model takes as given. *)
Variable repr_value : json -> string.

Definition format_value (v : json) : string :=
  match v with
  | JStr s => s
  | _ => repr_value v
  end.

(** Step 1 of [parse_product]. *)
Definition FALLBACK_TITLE : string := "Philodo Electric Bike".

Definition page_title (soup : Soup) : string :=
  let title :=
    match title_string soup with
    | Some s => if PyStr.nonempty s then Some (PyStr.strip s) else None
    | None => None
    end in
  let title :=
    match h1_text soup with
    | Some text => if (2 <? Z.of_nat (String.length text))%Z then Some text else title
    | None => title
    end in
  match title with
  | Some t => if PyStr.nonempty t then t else FALLBACK_TITLE
  | None => FALLBACK_TITLE
  end.

(** Steps 3 and 4. *)
Definition FALLBACK_DESCRIPTION : string := "<p>High-performance dual-motor e-bike.</p>".

Definition page_description (soup : Soup) (json_ld : gmap string json) : string :=
  let desc := py_or (dict_get "description" json_ld) (dict_get "Description" json_ld) in
  let description_html :=
    if negb (truthy desc) then
      match desc_container soup with
      | Some html => html
      | None => EmptyString
      end
    else "<p>" +:+ format_value desc +:+ "</p>" in
  let description_html :=
    match extract_specs_block (spec_headings soup) with
    | Some specs_html =>
        if PyStr.nonempty specs_html && negb (PyStr.contains specs_html description_html)
        then description_html +:+ newline +:+ "<h3>Specifications</h3>" +:+ newline +:+ specs_html
        else description_html
    | None => description_html
    end in
  let cleaned := clean_html_text description_html in
  if PyStr.nonempty cleaned then cleaned else FALLBACK_DESCRIPTION.

(** Step 5, first half: the price of the offers.  [offers[0].get] is a
    method call on whatever the first element is. *)
Definition offers_price (json_ld : gmap string json) : exn + json :=
  match dict_get "offers" json_ld with
  | JObj members => inr (dict_get "price" (dict_of members))
  | JArr (first :: _) => method_get first "price"
  | _ => inr JNull
  end.

(** Step 5, second half: the meta tags when there is no price yet. *)
Definition meta_fallback (soup : Soup) (price : json) : json :=
  if negb (truthy price) then
    let price_meta :=
      match meta_price_amount soup with
      | Some m => Some m
      | None => meta_price soup
      end in
    match price_meta with
    | Some (Some content) => if PyStr.nonempty content then JStr content else price
    | _ => price
    end
  else price.

(** Step 6. *)
Definition page_sku (json_ld : gmap string json) : json :=
  let sku := dict_get "sku" json_ld in
  if negb (truthy sku) then
    match dict_get "offers" json_ld with
    | JObj members => dict_get "sku" (dict_of members)
    | _ => sku
    end
  else sku.

Definition parse_product (url : string) : M (option ProductData) :=
  resp <- get url ;;
  match resp with
  | None => ret None
  | Some resp =>
      soup <- lift (parsed resp) ;;
      let title := page_title soup in
      let json_ld := extract_json_ld (ld_scripts soup) in
      let description_html := page_description soup json_ld in
      price <- lift (offers_price json_ld) ;;
      let price := meta_fallback soup price in
      let sku := page_sku json_ld in
      let images := extract_images (imgs soup) in
      let handle := make_handle title in
      let grams := JNull in
      ret (Some {| handle := handle;
                   title := title;
                   body_html := description_html;
                   vendor := DEFAULT_VENDOR;
                   product_type := DEFAULT_PRODUCT_TYPE;
                   tags := DEFAULT_TAGS;
                   images := images;
                   price := price;
                   compare_at_price := JNull;
                   sku := sku;
                   grams := grams;
                   weight_unit := "lb";
                   requires_shipping := true;
                   taxable := true;
                   published := true;
                   option1_name := "Title";
                   option1_value := "Default Title" |})
  end.

(** The loop of [main] over the URLs that remain. *)
Fixpoint scrape (urls : list string) (products : list ProductData)
  : M (list ProductData) :=
  match urls with
  | [] => ret products
  | url :: rest =>
      print ("[INFO] Scraping: " +:+ url) ;;;
      p <- parse_product url ;;
      match p with
      | Some p =>
          print ("[OK] Parsed: " +:+ title p +:+ " ("
                 +:+ PyStr.of_nat (length (images p)) +:+ " images)") ;;;
          scrape rest (products ++ [p])
      | None =>
          print ("[FAIL] Could not parse: " +:+ url) ;;;
          scrape rest products
      end
  end.

Definition write_csv (products : list ProductData) : M unit :=
  open_w OUTPUT_CSV ;;;
  writerow OUTPUT_CSV (map JStr CSV_HEADERS) ;;;
  for_each products (fun prod =>
    for_each (product_to_rows prod) (writerow OUTPUT_CSV)).

Definition main (urls : list string) : M unit :=
  match urls with
  | [] =>
      print "[INFO] No URLs provided in PRODUCT_URLS. Pass URLs as CLI args or edit the script." ;;;
      print "Usage: python philodo_to_shopify.py https://.../falcon https://.../forester" ;;;
      ret tt
  | _ =>
      products <- scrape urls [] ;;
      match products with
      | [] =>
          print "[ERROR] No products parsed. Exiting." ;;;
          ret tt
      | _ =>
          write_csv products ;;;
          print ("[DONE] Wrote " +:+ OUTPUT_CSV +:+ " with "
                 +:+ PyStr.of_nat (length products) +:+ " product(s).")
      end
  end.

(** The block under [if __name__ == "__main__"]: the arguments of the
    command line replace [PRODUCT_URLS] when there is one at least;
    [argv] is [sys.argv], the name of the script first. *)
Definition run_script (argv : list string) : M unit :=
  let urls := PRODUCT_URLS in
  let urls := if (1 <? length argv)%nat then drop 1 argv else urls in
  main urls.

End Program.

(* ===================================================================== *)
(** * Vocabulary of the statements                                        *)
(* ===================================================================== *)

(** The position of a column in a list of column names. *)
Fixpoint index_of (name : string) (names : list string) : option nat :=
  match names with
  | [] => None
  | x :: rest => if String.eqb name x then Some 0 else S <$> index_of name rest
  end.

(** The cell of [row] that a reader of the file finds under the column
    [name] of [CSV_HEADERS]: cells and columns are paired by position. *)
Definition cell (row : list json) (name : string) : option json :=
  i ← index_of name CSV_HEADERS; row !! i.

Definition empty_cell : json := JStr EmptyString.

(** A cell is populated when it is not the empty string. *)
Definition populated (c : json) : bool :=
  match c with
  | JStr s => PyStr.nonempty s
  | _ => true
  end.

(** The position of the first occurrence of [u] in [l] ([length l] when
    there is none). *)
Fixpoint first_index (u : string) (l : list string) : nat :=
  match l with
  | [] => 0
  | x :: rest => if decide (x = u) then 0 else S (first_index u rest)
  end.

(** The distinct elements of [l], each at the place of its first
    occurrence. *)
Fixpoint first_occurrences (l : list string) : list string :=
  match l with
  | [] => []
  | x :: rest => x :: filter (fun y => y <> x) (first_occurrences rest)
  end.

(** [u] occurs in [l] before [v] does. *)
Definition occurs_before (l : list string) (u v : string) : Prop :=
  first_index u l < first_index v l.

(** [s] has an occurrence of [word] in some letter case. *)
Definition mentions (word s : string) : Prop :=
  exists pre mid post, s = pre +:+ mid +:+ post /\ PyStr.lower mid = word.

(** The dict-shaped blocks of the page in document order, a list block
    giving its elements (one level). *)
Definition dict_blocks_of (tag : LdScript) : list (list (string * json)) :=
  match tag with
  | Parsed block =>
      omap (fun b => match b with JObj members => Some members | _ => None end)
           (normalize_blocks block)
  | _ => []
  end.

Definition dict_blocks (scripts : list LdScript) : list (list (string * json)) :=
  concat (map dict_blocks_of scripts).

(** An attempt fails, and the loop of [get] goes on, when the call raises
    a [RequestException] or the status is not 200. *)
Definition failed (o : outcome) : bool :=
  match o with
  | Returns resp => negb (status_code resp =? 200)%Z
  | RequestException _ => true
  | Raises _ => false
  end.

(** The sleeps of a trace, and the number of its calls of [requests.get]. *)
Definition sleeps_in (tr : list event) : list Q :=
  omap (fun e => match e with Slept d => Some d | _ => None end) tr.

Definition requests_in (tr : list event) : nat :=
  length (omap (fun e => match e with Requested url => Some url | _ => None end) tr).

(** The sleeps after [k] failed attempts in a row, numbered from 1. *)
Definition backoff (k : nat) : list Q :=
  map (fun attempt => RETRY_SLEEP * inject_Z (Z.of_nat attempt))%Q (seq 1 k).

Definition with_trace (w : World) (tr : list event) : World :=
  {| server := server w; requests_made := requests_made w;
     trace := tr; files := files w |}.

(** What holds of every record that [parse_product] builds. *)
Definition record_invariant (p : ProductData) : Prop :=
  PyStr.nonempty (title p) = true
  /\ PyStr.nonempty (body_html p) = true
  /\ handle p = make_handle (title p)
  /\ PyStr.all_chars Re.slug_char (handle p) = true
  /\ PyStr.contains "philodo" (handle p) = true
  /\ NoDup (images p)
  /\ length (images p) <= 12
  /\ vendor p = DEFAULT_VENDOR
  /\ tags p = DEFAULT_TAGS
  /\ compare_at_price p = JNull
  /\ grams p = JNull
  /\ published p = true.

(** [c] is not the character [sep]. *)
Definition is_not (sep : ascii) (c : ascii) : bool := negb (Ascii.eqb c sep).

(** [s] has a newline. *)
Fixpoint has_nl (s : string) : bool :=
  match s with
  | EmptyString => false
  | String c s' => Ascii.eqb c PyStr.nl || has_nl s'
  end.

(** Some white-space character of [s] stands directly before a newline
    (two newlines in a row are such a place). *)
Fixpoint space_before_nl (s : string) : bool :=
  match s with
  | EmptyString => false
  | String c s' =>
      (PyStr.is_space c
       && match s' with
          | String d _ => Ascii.eqb d PyStr.nl
          | EmptyString => false
          end)
      || space_before_nl s'
  end.

(** The seconds slept in a trace. *)
Definition sleep_total (tr : list event) : Q :=
  fold_right Qplus 0%Q (sleeps_in tr).

(** A value that is a [dict]. *)
Definition is_dict (v : json) : bool :=
  match v with
  | JObj _ => true
  | _ => false
  end.

(* ===================================================================== *)
(** * Worked inputs                                                       *)
(* ===================================================================== *)

Definition empty_page : Soup :=
  {| title_string := None; h1_text := None; ld_scripts := []; desc_container := None;
     spec_headings := []; meta_price_amount := None; meta_price := None; imgs := [] |}.

(** A product page whose JSON-LD block lists its offers by reference:
    [{"name": "Falcon", "offers": ["https://shop.example/offers/1"]}]. *)
Definition page_with_offer_reference : Soup :=
  {| title_string := Some "Falcon"; h1_text := Some "Falcon 60V";
     ld_scripts := [Parsed (JObj [("name", JStr "Falcon");
                                  ("offers", JArr [JStr "https://shop.example/offers/1"])])];
     desc_container := None; spec_headings := [];
     meta_price_amount := None; meta_price := None; imgs := [] |}.

Definition ok_response (page : Soup) : outcome :=
  Returns {| status_code := 200; parsed := inr page |}.

(** A world in which every request is answered by [o]. *)
Definition world_answering (o : outcome) : World :=
  {| server := fun _ _ => o; requests_made := 0; trace := []; files := ∅ |}.

(** A site that answers every request with status 503. *)
Definition down : World :=
  world_answering (Returns {| status_code := 503; parsed := inr empty_page |}).

Definition falcon_url : string := "https://shop.example/falcon".

Definition plain_img (url : string) : Img :=
  {| src := Some url; data_src := None; data_original := None; srcset := None |}.

Definition forester_url : string := "https://shop.example/forester".

(** A product page with a title, a price in a meta tag and two images. *)
Definition falcon_page : Soup :=
  {| title_string := Some "Falcon 60V"; h1_text := None; ld_scripts := [];
     desc_container := Some "<div class=description>Dual motor</div>";
     spec_headings := [];
     meta_price_amount := Some (Some "1999.00"); meta_price := None;
     imgs := [plain_img "https://shop.example/falcon.jpg";
              plain_img "https://shop.example/falcon-side.jpg";
              plain_img "https://shop.example/falcon.jpg"] |}.

(** A product page whose JSON-LD block has a name, a SKU and a list of
    offers that holds [null]. *)
Definition page_with_null_offer : Soup :=
  {| title_string := Some "Forester"; h1_text := Some "Forester 60V";
     ld_scripts := [Parsed (JObj [("name", JStr "Forester"); ("sku", JStr "FOR-60");
                                  ("offers", JArr [JNull])])];
     desc_container := None; spec_headings := [];
     meta_price_amount := Some (Some "1799.00"); meta_price := None;
     imgs := [plain_img "https://shop.example/forester.jpg"] |}.

(** An answer with status 200 whose text the parser rejects. *)
Definition rejected_markup : outcome :=
  Returns {| status_code := 200; parsed := inl ParserRejectedMarkup |}.

(** A call of [requests.get] that raises the [LocationParseError] of
    urllib3, which is no [RequestException]. *)
Definition bad_location : outcome := Raises (LibraryError "LocationParseError").

Definition img_with_srcset (url candidates : string) : Img :=
  {| src := Some url; data_src := None; data_original := None; srcset := Some candidates |}.

Definition product_with_images (urls : list string) : ProductData :=
  {| handle := "philodo-falcon"; title := "Falcon"; body_html := "<p>Falcon</p>";
     vendor := DEFAULT_VENDOR; product_type := DEFAULT_PRODUCT_TYPE; tags := DEFAULT_TAGS;
     images := urls; price := JStr "1999.00"; compare_at_price := JNull;
     sku := JStr "FAL-60"; grams := JNull; weight_unit := "lb";
     requires_shipping := true; taxable := true; published := true;
     option1_name := "Title"; option1_value := "Default Title" |}.

(* ===================================================================== *)
(** * Facts about strings                                                 *)
(* ===================================================================== *)

Module PyStrFacts.
Import PyStr.

Lemma all_chars_app (p : ascii -> bool) (a b : string) :
  all_chars p (a +:+ b) = all_chars p a && all_chars p b.
Proof.
  induction a as [|c a IH]; simpl; [reflexivity|].
  rewrite IH. apply andb_assoc.
Qed.

Lemma lstrip_by_chars (p q : ascii -> bool) (s : string) :
  all_chars q s = true -> all_chars q (lstrip_by p s) = true.
Proof.
  induction s as [|c s IH]; simpl; [easy|].
  intros H. apply andb_true_iff in H as [Hc Hs].
  destruct (p c); [auto|].
  simpl. now rewrite Hc, Hs.
Qed.

Lemma rstrip_by_chars (p q : ascii -> bool) (s : string) :
  all_chars q s = true -> all_chars q (rstrip_by p s) = true.
Proof.
  induction s as [|c s IH]; simpl; [easy|].
  intros H. apply andb_true_iff in H as [Hc Hs].
  specialize (IH Hs).
  destruct (rstrip_by p s) as [|d r].
  - destruct (p c); simpl; [reflexivity|]. now rewrite Hc.
  - change (all_chars q (String c (String d r))) with (q c && all_chars q (String d r)).
    now rewrite Hc, IH.
Qed.

Lemma first_char_lstrip_by (p : ascii -> bool) (s : string) (c : ascii) :
  first_char (lstrip_by p s) = Some c -> p c = false.
Proof.
  induction s as [|d s IH]; simpl; [discriminate|].
  destruct (p d) eqn:Hd; [exact IH|].
  simpl. intros [= <-]. exact Hd.
Qed.

Lemma first_char_rstrip_by (p : ascii -> bool) (s : string) (c : ascii) :
  first_char (rstrip_by p s) = Some c -> first_char s = Some c.
Proof.
  destruct s as [|d s]; simpl; [discriminate|].
  destruct (rstrip_by p s); [destruct (p d)|]; simpl; congruence.
Qed.

Lemma last_char_rstrip_by (p : ascii -> bool) (s : string) (c : ascii) :
  last_char (rstrip_by p s) = Some c -> p c = false.
Proof.
  induction s as [|d s IH]; simpl; [discriminate|].
  destruct (rstrip_by p s) as [|e r].
  - destruct (p d) eqn:Hd; simpl; [discriminate|].
    intros [= <-]. exact Hd.
  - exact IH.
Qed.

Lemma last_char_app (a b : string) :
  b <> EmptyString -> last_char (a +:+ b) = last_char b.
Proof.
  intros Hb. induction a as [|c a IH]; simpl; [reflexivity|].
  destruct (a +:+ b) eqn:E; [|exact IH].
  destruct a; simpl in E; [contradiction|discriminate].
Qed.

Lemma startswith_app (w b : string) : startswith w (w +:+ b) = true.
Proof.
  induction w as [|c w IH]; simpl; [reflexivity|].
  now rewrite Ascii.eqb_refl.
Qed.

Lemma contains_of_startswith (w s : string) :
  startswith w s = true -> contains w s = true.
Proof. intros H. destruct s; simpl in *; now rewrite H. Qed.

Lemma contains_app_r (w a s : string) :
  contains w s = true -> contains w (a +:+ s) = true.
Proof.
  intros H. induction a as [|c a IH]; simpl; [exact H|].
  rewrite IH. apply orb_true_r.
Qed.

Lemma contains_middle (w a b : string) : contains w (a +:+ w +:+ b) = true.
Proof. apply contains_app_r, contains_of_startswith, startswith_app. Qed.

Lemma lower_app (a b : string) : lower (a +:+ b) = lower a +:+ lower b.
Proof. induction a as [|c a IH]; simpl; [reflexivity|]. now rewrite IH. Qed.

End PyStrFacts.

(* ===================================================================== *)
(** * The handle                                                          *)
(* ===================================================================== *)

Section Handle.
Import PyStr PyStrFacts.

Lemma sub_nonslug_from_chars (in_run : bool) (s : string) :
  all_chars Re.slug_char (Re.sub_nonslug_from in_run s) = true.
Proof.
  revert in_run. induction s as [|c s IH]; intros in_run; simpl; [reflexivity|].
  destruct (Re.slug_char c) eqn:Hc.
  - simpl. now rewrite Hc, IH.
  - destruct in_run; [apply IH|]. simpl. now rewrite IH.
Qed.

Lemma slug_chars (title : string) : all_chars Re.slug_char (slug title) = true.
Proof.
  unfold slug, strip_by.
  apply rstrip_by_chars, lstrip_by_chars, sub_nonslug_from_chars.
Qed.

Lemma slug_first_char (title : string) : first_char (slug title) <> Some hyphen.
Proof.
  unfold slug, strip_by. intros H.
  apply first_char_rstrip_by, first_char_lstrip_by in H. discriminate H.
Qed.

Lemma slug_last_char (title : string) : last_char (slug title) <> Some hyphen.
Proof.
  unfold slug, strip_by. intros H.
  apply last_char_rstrip_by in H. discriminate H.
Qed.

(** Whatever the title, the handle is made of [a-z0-9-] only. *)
Lemma make_handle_chars (title : string) :
  all_chars Re.slug_char (make_handle title) = true.
Proof.
  unfold make_handle. cbv zeta.
  destruct (negb (contains "philodo" (slug title))).
  - rewrite all_chars_app, slug_chars. reflexivity.
  - apply slug_chars.
Qed.

(** Whatever the title, the handle does not start with a hyphen. *)
Lemma make_handle_first_char (title : string) :
  first_char (make_handle title) <> Some hyphen.
Proof.
  unfold make_handle. cbv zeta.
  destruct (negb (contains "philodo" (slug title))).
  - simpl. discriminate.
  - apply slug_first_char.
Qed.

(** Whatever the title, the handle mentions the brand. *)
Lemma make_handle_brand (title : string) :
  contains "philodo" (make_handle title) = true.
Proof.
  unfold make_handle. cbv zeta.
  destruct (contains "philodo" (slug title)) eqn:E; simpl negb; cbv iota.
  - exact E.
  - apply (contains_middle "philodo" EmptyString).
Qed.

(** When something of the title survives in the slug, the handle does not
    end with a hyphen. *)
Lemma make_handle_last_char (title : string) :
  slug title <> EmptyString -> last_char (make_handle title) <> Some hyphen.
Proof.
  intros Hne. unfold make_handle. cbv zeta.
  destruct (negb (contains "philodo" (slug title))).
  - rewrite last_char_app by exact Hne. apply slug_last_char.
  - apply slug_last_char.
Qed.

(** A title with no letter or digit of [a-z0-9] after lowering has an empty
    slug, and the handle is the bare prefix. *)
Lemma make_handle_empty_slug (title : string) :
  slug title = EmptyString -> make_handle title = "philodo-".
Proof. intros H. unfold make_handle. rewrite H. reflexivity. Qed.

Example make_handle_falcon :
  make_handle "Falcon 60V  Dual-Motor!" = "philodo-falcon-60v-dual-motor".
Proof. reflexivity. Qed.

Example make_handle_keeps_brand :
  make_handle "PHILODO Forester (2024)" = "philodo-forester-2024".
Proof. reflexivity. Qed.

(** C2 (the code departs from the claim).  The title of a page whose [<h1>]
    is three exclamation marks has no character of [a-z0-9-] after
    lowering: the run is replaced by one hyphen, [strip] removes it, and
    the prefix is put in front of the empty slug.  The handle that
    [parse_product] stores is [philodo-], which ends with a hyphen. *)
Theorem make_handle_symbols_only :
  slug "!!!" = EmptyString
  /\ make_handle "!!!" = "philodo-"
  /\ last_char (make_handle "!!!") = Some hyphen.
Proof. repeat split; reflexivity. Qed.

End Handle.

(* ===================================================================== *)
(** * The row mapper                                                      *)
(* ===================================================================== *)

Section Rows.

Lemma fold_left_snoc {A B : Type} (g : list B -> A -> list B) (f : A -> B)
    (l : list A) (acc : list B) :
  (forall rows x, g rows x = rows ++ [f x]) ->
  fold_left g l acc = acc ++ map f l.
Proof.
  intros Hg. revert acc. induction l as [|x l IH]; intros acc; simpl.
  - now rewrite app_nil_r.
  - rewrite IH, Hg, <- app_assoc. reflexivity.
Qed.

Lemma enumerate_length {A : Type} (start : nat) (l : list A) :
  length (enumerate start l) = length l.
Proof. revert start. induction l; intros; simpl; auto. Qed.

Lemma enumerate_lookup {A : Type} (start k : nat) (l : list A) (x : A) :
  l !! k = Some x -> enumerate start l !! k = Some (start + k, x).
Proof.
  revert start k. induction l as [|y l IH]; intros start k H; [discriminate|].
  destruct k as [|k]; simpl in *.
  - injection H as ->. now rewrite Nat.add_0_r.
  - rewrite (IH (S start) k H). f_equal. f_equal. lia.
Qed.

(** The two loops of [product_to_rows] as one list. *)
Lemma product_to_rows_unfold (p : ProductData) :
  product_to_rows p =
  base_row p :: map (fun x => image_row p x.1 x.2) (enumerate 2 (tail (images p))).
Proof.
  unfold product_to_rows.
  rewrite (fold_left_snoc _ (fun x => image_row p x.1 x.2)); [reflexivity|].
  intros rows [idx img]. reflexivity.
Qed.

Lemma product_to_rows_length (p : ProductData) :
  length (product_to_rows p) = S (length (tail (images p))).
Proof.
  rewrite product_to_rows_unfold. simpl.
  now rewrite length_map, enumerate_length.
Qed.

Lemma product_to_rows_image_row (p : ProductData) (k : nat) (img : string) :
  tail (images p) !! k = Some img ->
  product_to_rows p !! S k = Some (image_row p (2 + k) img).
Proof.
  intros H. rewrite product_to_rows_unfold. simpl.
  rewrite list_lookup_fmap, (enumerate_lookup 2 k _ img H). reflexivity.
Qed.

Lemma base_row_length (p : ProductData) : length (base_row p) = 24.
Proof. reflexivity. Qed.

Lemma image_row_length (p : ProductData) (idx : nat) (img : string) :
  length (image_row p idx img) = 25.
Proof. reflexivity. Qed.

Lemma CSV_HEADERS_length : length CSV_HEADERS = 25.
Proof. reflexivity. Qed.

(** A product without image has the first row only. *)
Lemma product_to_rows_no_image (p : ProductData) :
  images p = [] -> product_to_rows p = [base_row p].
Proof. intros H. rewrite product_to_rows_unfold, H. reflexivity. Qed.

(** In a row of the second loop, every column but three is empty. *)
Lemma image_row_other_cells (p : ProductData) (idx : nat) (img name : string) :
  name ∈ CSV_HEADERS ->
  name ∉ ["Handle"; "Image Src"; "Image Position"] ->
  cell (image_row p idx img) name = Some empty_cell.
Proof.
  intros Hin Hnot. unfold CSV_HEADERS in Hin.
  repeat (apply elem_of_cons in Hin as [-> | Hin]);
    try reflexivity;
    try (exfalso; apply Hnot; repeat constructor).
  inversion Hin.
Qed.

(** C3 (amended).  A product with [n >= 1] images gives exactly [n] rows.
    The first row carries the fields of the product in the columns from
    Handle to Image Alt Text: the first image under Image Src and, under
    Image Position, "1" when that URL is not empty; the Standard Product
    Type cell is left empty, and the SKU, grams, price and compare-at
    cells hold the field or the empty string when the field is [None] or
    otherwise falsy.  For [2 <= i <= n], row [i] has 25 cells: the handle,
    the [i]-th image and [str(i)] under Handle, Image Src and Image
    Position, and the empty string under every other column. *)
Theorem product_to_rows_with_images (p : ProductData) (first_img : string)
    (more : list string) :
  images p = first_img :: more ->
  length (product_to_rows p) = length (images p)
  /\ (exists first,
        product_to_rows p !! 0 = Some first
        /\ take 22 first =
             [ JStr (handle p); JStr (title p); JStr (body_html p); JStr (vendor p);
               empty_cell; JStr (PyStr.join "," (tags p));
               JStr (bool_cell (published p));
               JStr (option1_name p); JStr (option1_value p);
               py_or (sku p) empty_cell; py_or (grams p) empty_cell;
               JStr "shopify"; JStr "deny"; JStr "manual";
               py_or (price p) empty_cell; py_or (compare_at_price p) empty_cell;
               JStr (bool_cell (requires_shipping p)); JStr (bool_cell (taxable p));
               JStr (weight_unit p);
               JStr first_img;
               JStr (if PyStr.nonempty first_img then "1" else "");
               JStr (title p) ]
        /\ cell first "Handle" = Some (JStr (handle p))
        /\ cell first "Standard Product Type" = Some empty_cell
        /\ cell first "Image Src" = Some (JStr first_img)
        /\ (first_img <> EmptyString -> cell first "Image Position" = Some (JStr "1")))
  /\ (forall i img,
        2 <= i -> images p !! (i - 1) = Some img ->
        exists row,
          product_to_rows p !! (i - 1) = Some row
          /\ length row = 25
          /\ cell row "Handle" = Some (JStr (handle p))
          /\ cell row "Image Src" = Some (JStr img)
          /\ cell row "Image Position" = Some (JStr (PyStr.of_nat i))
          /\ (forall name,
                name ∈ CSV_HEADERS ->
                name ∉ ["Handle"; "Image Src"; "Image Position"] ->
                cell row name = Some empty_cell)).
Proof.
  intros Himgs. split; [|split].
  - rewrite product_to_rows_length, Himgs. reflexivity.
  - exists (base_row p). rewrite product_to_rows_unfold.
    unfold base_row. rewrite Himgs.
    repeat split; try reflexivity.
    intros Hne. destruct first_img; [contradiction|reflexivity].
  - intros i img Hi Hlook.
    destruct i as [|[|k]]; try lia.
    replace (S (S k) - 1) with (S k) in * by lia.
    exists (image_row p (2 + k) img). split.
    + apply product_to_rows_image_row. rewrite Himgs in *. exact Hlook.
    + repeat split; try reflexivity. apply image_row_other_cells.
Qed.

(** The theorem at a product with three images. *)
Lemma product_to_rows_three_images :
  let p := product_with_images ["a.jpg"; "b.jpg"; "c.jpg"] in
  images p = "a.jpg" :: ["b.jpg"; "c.jpg"]
  /\ length (product_to_rows p) = 3
  /\ exists row,
       product_to_rows p !! 2 = Some row
       /\ length row = 25
       /\ cell row "Image Src" = Some (JStr "c.jpg")
       /\ cell row "Image Position" = Some (JStr "3").
Proof.
  cbv zeta. split; [reflexivity|].
  destruct (product_to_rows_with_images
              (product_with_images ["a.jpg"; "b.jpg"; "c.jpg"])
              "a.jpg" ["b.jpg"; "c.jpg"] eq_refl) as (Hlen & _ & Hrows).
  split; [exact Hlen|].
  destruct (Hrows 3 "c.jpg" ltac:(lia) eq_refl) as (row & Hrow & Hl & _ & Hsrc & Hpos & _).
  exists row. repeat split; assumption.
Defined.

(** C3 (as stated, refuted).  In the first row of a product with three
    images the Standard Product Type column is empty, as the comment in
    [base_row] says it is meant to be, and so is the grams column of a
    product without weight: not every column of the first row is
    populated. *)
Lemma first_row_has_empty_columns :
  exists first,
    product_to_rows (product_with_images ["a.jpg"; "b.jpg"; "c.jpg"]) !! 0 = Some first
    /\ cell first "Standard Product Type" = Some empty_cell
    /\ cell first "Variant Grams" = Some empty_cell
    /\ forallb populated first = false.
Proof. eexists. repeat split; reflexivity. Qed.

(** C10 (the code departs from the claim).  A product without image gives
    one row whose Image Src and Image Position cells are empty, but the
    row has 24 cells for the 25 columns of the header: [base_row] has no
    cell for SEO Title, so the SEO description stands under SEO Title, the
    category under SEO Description, and nothing under Google Product
    Category. *)
Theorem row_without_image_has_24_cells :
  let p := product_with_images [] in
  (exists row,
     product_to_rows p = [row]
     /\ length row = 24
     /\ cell row "Image Src" = Some empty_cell
     /\ cell row "Image Position" = Some empty_cell
     /\ cell row "SEO Description" =
          Some (JStr "Sporting Goods > Outdoor Recreation > Cycling > Electric Bicycles")
     /\ cell row "Google Product Category" = None)
  /\ length CSV_HEADERS = 25
  /\ (forall q : ProductData, length (base_row q) = 24).
Proof.
  split; [|split; [reflexivity | intros q; reflexivity]].
  eexists. repeat split; reflexivity.
Qed.

End Rows.

(* ===================================================================== *)
(** * The image extractor                                                 *)
(* ===================================================================== *)

Section Images.
Import PyStr PyStrFacts.

(** The first loop appends the URL of each element that is not skipped. *)
Lemma collect_urls_omap (imgs : list Img) : collect_urls imgs = omap img_url imgs.
Proof.
  unfold collect_urls.
  enough (forall acc,
            fold_left (fun urls img =>
                         match img_url img with
                         | Some u => urls ++ [u]
                         | None => urls
                         end) imgs acc = acc ++ omap img_url imgs) as H
      by apply (H []).
  induction imgs as [|img imgs IH]; intros acc; simpl.
  - now rewrite app_nil_r.
  - rewrite IH. destruct (img_url img); [|reflexivity].
    now rewrite <- app_assoc.
Qed.

(** The second loop, started with the set [seen] and the list [acc]. *)
Lemma dedupe_loop (l : list string) (seen : gset string) (acc : list string) :
  (fold_left dedupe_step l (seen, acc)).2 =
  acc ++ filter (fun y => y ∉ seen) (first_occurrences l).
Proof.
  revert seen acc. induction l as [|x l IH]; intros seen acc; simpl.
  - now rewrite app_nil_r.
  - unfold dedupe_step at 2. simpl. destruct (decide (x ∈ seen)) as [Hin|Hout].
    + rewrite IH, filter_cons_False by (intros H; apply H, Hin).
      f_equal. rewrite list_filter_filter. apply list_filter_iff.
      intros y. split; [|intros [Hy _]; exact Hy]. intros Hy. split; [exact Hy|].
      intros ->. apply Hy, Hin.
    + rewrite IH, filter_cons_True by exact Hout.
      rewrite <- app_assoc. simpl. do 2 f_equal.
      rewrite list_filter_filter. apply list_filter_iff.
      intros y. cbv beta. rewrite elem_of_union, elem_of_singleton. tauto.
Qed.

Lemma dedupe_first_occurrences (l : list string) : dedupe l = first_occurrences l.
Proof.
  unfold dedupe. rewrite dedupe_loop. simpl.
  induction (first_occurrences l) as [|y m IH]; [reflexivity|].
  rewrite filter_cons_True by apply not_elem_of_empty. now rewrite IH.
Qed.

Lemma elem_of_first_occurrences (l : list string) (u : string) :
  u ∈ first_occurrences l <-> u ∈ l.
Proof.
  induction l as [|x l IH]; simpl; [reflexivity|].
  rewrite !elem_of_cons, list_elem_of_filter, IH.
  destruct (decide (u = x)); tauto.
Qed.

Lemma NoDup_first_occurrences (l : list string) : NoDup (first_occurrences l).
Proof.
  induction l as [|x l IH]; simpl; constructor.
  - rewrite list_elem_of_filter. tauto.
  - apply NoDup_filter, IH.
Qed.

Lemma StronglySorted_filter {A : Type} (R : relation A) (P : A -> Prop)
    `{!forall x, Decision (P x)} (l : list A) :
  StronglySorted R l -> StronglySorted R (filter P l).
Proof.
  induction 1 as [|x l Hl IH Hx]; [constructor|].
  rewrite filter_cons. destruct (decide (P x)); [|exact IH].
  constructor; [exact IH|].
  apply Forall_forall. intros y Hy. apply list_elem_of_filter in Hy as [_ Hy].
  rewrite Forall_forall in Hx. auto.
Qed.

Lemma StronglySorted_change {A : Type} (R R' : relation A) (l : list A) :
  (forall u v, u ∈ l -> v ∈ l -> R u v -> R' u v) ->
  StronglySorted R l -> StronglySorted R' l.
Proof.
  intros Himp Hs. induction Hs as [|x l Hl IH Hx]; constructor.
  - apply IH. intros u v Hu Hv. apply Himp; now right.
  - rewrite Forall_forall in *. intros y Hy.
    apply Himp; [left | now right | now apply Hx].
Qed.

Lemma first_index_head (x : string) (l : list string) : first_index x (x :: l) = 0.
Proof. simpl. destruct (decide (x = x)); congruence. Qed.

Lemma first_index_tail (x u : string) (l : list string) :
  u <> x -> first_index u (x :: l) = S (first_index u l).
Proof. intros H. simpl. destruct (decide (x = u)); congruence. Qed.

(** The distinct elements come in the order of their first occurrences. *)
Lemma first_occurrences_sorted (l : list string) :
  StronglySorted (occurs_before l) (first_occurrences l).
Proof.
  induction l as [|x l IH]; simpl; constructor.
  - apply StronglySorted_change with (R := occurs_before l);
      [|apply StronglySorted_filter, IH].
    intros u v Hu Hv. apply list_elem_of_filter in Hu as [Hu _], Hv as [Hv _].
    unfold occurs_before. rewrite !first_index_tail by assumption. lia.
  - apply Forall_forall. intros y Hy. apply list_elem_of_filter in Hy as [Hy _].
    unfold occurs_before. rewrite first_index_head, first_index_tail by assumption. lia.
Qed.

Lemma StronglySorted_take {A : Type} (R : relation A) (n : nat) (l : list A) :
  StronglySorted R l -> StronglySorted R (take n l).
Proof.
  intros H. rewrite <- (take_drop n l) in H.
  exact (StronglySorted_app_1_l R _ _ H).
Qed.

Lemma extract_images_in_collect (imgs : list Img) (u : string) :
  u ∈ extract_images imgs -> u ∈ collect_urls imgs.
Proof.
  unfold extract_images. rewrite dedupe_first_occurrences. intros Hu.
  apply elem_of_first_occurrences.
  eapply elem_of_sublist; [exact Hu | apply sublist_take].
Qed.

(** C4.  Whatever the [<img>] elements, the output has no URL twice, its
    URLs are accepted URLs and stand in the order of their first
    occurrences among the accepted URLs, and there are at most 12 of them;
    below 12, no accepted URL is missing. *)
Theorem extract_images_distinct_ordered_capped (imgs : list Img) :
  let urls := collect_urls imgs in
  let out := extract_images imgs in
  NoDup out
  /\ length out <= 12
  /\ (forall u, u ∈ out -> u ∈ urls)
  /\ StronglySorted (occurs_before urls) out
  /\ (length out < 12 -> forall u, u ∈ urls -> u ∈ out).
Proof.
  cbv zeta. unfold extract_images. rewrite dedupe_first_occurrences.
  set (urls := collect_urls imgs).
  repeat split.
  - eapply sublist_NoDup; [apply NoDup_first_occurrences | apply sublist_take].
  - rewrite length_take. lia.
  - intros u Hu. apply elem_of_first_occurrences.
    eapply elem_of_sublist; [exact Hu | apply sublist_take].
  - apply StronglySorted_take, first_occurrences_sorted.
  - intros Hlen u Hu. rewrite take_ge.
    + now apply elem_of_first_occurrences.
    + rewrite length_take in Hlen. lia.
Qed.

(** The theorem on a page where two URLs come twice. *)
Lemma extract_images_on_duplicates :
  let imgs := [plain_img "a.jpg"; plain_img "b.jpg"; plain_img "a.jpg";
               plain_img "c.jpg"; plain_img "b.jpg"] in
  length (extract_images imgs) < 12
  /\ "c.jpg" ∈ collect_urls imgs
  /\ NoDup (extract_images imgs)
  /\ "c.jpg" ∈ extract_images imgs.
Proof.
  cbv zeta.
  match goal with |- context [extract_images ?l] =>
    destruct (extract_images_distinct_ordered_capped l) as (Hnodup & _ & _ & _ & Hall)
  end.
  assert (Hlen : length (extract_images
                   [plain_img "a.jpg"; plain_img "b.jpg"; plain_img "a.jpg";
                    plain_img "c.jpg"; plain_img "b.jpg"]) < 12)
    by (vm_compute; lia).
  assert (Hin : "c.jpg" ∈ collect_urls
                   [plain_img "a.jpg"; plain_img "b.jpg"; plain_img "a.jpg";
                    plain_img "c.jpg"; plain_img "b.jpg"])
    by (vm_compute; repeat constructor).
  exact (conj Hlen (conj Hin (conj Hnodup (Hall Hlen _ Hin)))).
Defined.

Example extract_images_duplicates :
  extract_images [plain_img "a.jpg"; plain_img "b.jpg"; plain_img "a.jpg";
                  plain_img "c.jpg"; plain_img "b.jpg"]
  = ["a.jpg"; "b.jpg"; "c.jpg"].
Proof. vm_compute. reflexivity. Qed.

(** An occurrence of a skip word in some letter case is seen by the test
    of the loop. *)
Lemma mentions_is_irrelevant (word s : string) :
  In word SKIP_WORDS -> mentions word s -> is_irrelevant s = true.
Proof.
  intros Hw (pre & mid & post & -> & Hmid).
  unfold is_irrelevant. apply existsb_exists. exists word. split; [exact Hw|].
  rewrite !lower_app, Hmid. apply contains_middle.
Qed.

(** An element whose own URL is irrelevant is skipped, srcset or not. *)
Lemma img_url_irrelevant (img : Img) (s : string) :
  chosen_src img = Some s -> is_irrelevant s = true -> img_url img = None.
Proof.
  intros Hsrc Hirr. unfold img_url. rewrite Hsrc, Hirr.
  now destruct (negb (nonempty s)).
Qed.

(** Without srcset, the URL that is appended is the element's own, and it
    has passed the test. *)
Lemma img_url_without_srcset (img : Img) (u : string) :
  attr_truthy (srcset img) = false -> img_url img = Some u ->
  chosen_src img = Some u /\ is_irrelevant u = false.
Proof.
  unfold img_url, attr_truthy. intros Hss.
  destruct (chosen_src img) as [s|]; [|discriminate].
  destruct (negb (nonempty s)); [discriminate|].
  destruct (is_irrelevant s) eqn:Hirr; [discriminate|].
  destruct (srcset img) as [ss|].
  - rewrite Hss. intros [= <-]. now split.
  - intros [= <-]. now split.
Qed.

(** C5 (amended).  The test for "logo", "icon", "spinner", "placeholder"
    and "svg", in any letter case, is made on the URL taken from src,
    data-src or data-original, before any srcset replacement.  An element
    whose own URL mentions one of the words contributes nothing to the
    output, wherever it stands and whether or not it carries a srcset; and
    when no element carries a srcset, no URL of the output mentions any of
    the words. *)
Theorem extract_images_skips_irrelevant :
  (forall (before after : list Img) (img : Img) (s word : string),
      chosen_src img = Some s ->
      In word SKIP_WORDS ->
      mentions word s ->
      extract_images (before ++ img :: after) = extract_images (before ++ after))
  /\ (forall (imgs : list Img) (u word : string),
        (forall img, img ∈ imgs -> attr_truthy (srcset img) = false) ->
        u ∈ extract_images imgs ->
        In word SKIP_WORDS ->
        ~ mentions word u).
Proof.
  split.
  - intros before after img s word Hsrc Hw Hm.
    unfold extract_images. rewrite !collect_urls_omap, !omap_app. simpl.
    now rewrite (img_url_irrelevant img s Hsrc (mentions_is_irrelevant word s Hw Hm)).
  - intros imgs u word Hno Hu Hw Hm.
    pose proof (extract_images_in_collect imgs u Hu) as Hc.
    rewrite collect_urls_omap in Hc.
    apply list_elem_of_omap in Hc as (img & Himg & Hurl).
    destruct (img_url_without_srcset img u (Hno img Himg) Hurl) as [_ Hirr].
    rewrite (mentions_is_irrelevant word u Hw Hm) in Hirr. discriminate.
Qed.

(** C5 (as stated, refuted).  The URL of the last srcset candidate is
    taken without the test: an element with a clean [src] whose srcset
    ends with a logo puts the logo in the output. *)
Lemma srcset_replacement_is_not_filtered :
  extract_images [img_with_srcset "/img/falcon.jpg"
                                  "/img/falcon.jpg 1x,/img/Logo@2x.jpg 2x"]
    = ["/img/Logo@2x.jpg"]
  /\ mentions "logo" "/img/Logo@2x.jpg".
Proof.
  split; [vm_compute; reflexivity|].
  exists "/img/", "Logo", "@2x.jpg". split; reflexivity.
Qed.

(** The first half of the theorem at an element in the middle of a page. *)
Lemma extract_images_skips_logo :
  chosen_src (plain_img "/img/LOGO.png") = Some "/img/LOGO.png"
  /\ In "logo" SKIP_WORDS
  /\ mentions "logo" "/img/LOGO.png"
  /\ extract_images ([plain_img "a.jpg"] ++ plain_img "/img/LOGO.png" :: [plain_img "b.jpg"])
     = extract_images ([plain_img "a.jpg"] ++ [plain_img "b.jpg"]).
Proof.
  assert (Hm : mentions "logo" "/img/LOGO.png")
    by (exists "/img/", "LOGO", ".png"; split; reflexivity).
  assert (Hw : In "logo" SKIP_WORDS) by (simpl; auto).
  split; [reflexivity|]. split; [exact Hw|]. split; [exact Hm|].
  exact (proj1 extract_images_skips_irrelevant
               [plain_img "a.jpg"] [plain_img "b.jpg"] (plain_img "/img/LOGO.png")
               "/img/LOGO.png" "logo" eq_refl Hw Hm).
Defined.

(** C6 (the code departs from the claim).  With the usual blank after the
    comma, the last piece of the srcset starts with a blank, so that its
    [split(" ")[0]] is the empty string: the URL that replaces [src] is the
    empty string and not the last candidate, "b.jpg".  Without the blank
    the last candidate is found. *)
Theorem srcset_blank_after_comma :
  srcset_candidates "a.jpg 1x, b.jpg 2x" = ["a.jpg"; EmptyString]
  /\ extract_images [img_with_srcset "a.jpg" "a.jpg 1x, b.jpg 2x"] = [EmptyString]
  /\ extract_images [img_with_srcset "a.jpg" "a.jpg 1x,b.jpg 2x"] = ["b.jpg"].
Proof. repeat split; vm_compute; reflexivity. Qed.

End Images.

(* ===================================================================== *)
(** * The JSON-LD merge                                                   *)
(* ===================================================================== *)

Section JsonLd.

(** [d.update(members)] is the union in which [members] has priority. *)
Lemma dict_update_union (d : gmap string json) (members : list (string * json)) :
  dict_update d members = dict_of members ∪ d.
Proof.
  unfold dict_of. revert d. induction members as [|[k v] members IH]; intros d.
  - simpl. now rewrite (left_id_L ∅ (∪)).
  - unfold dict_update in *. simpl. rewrite IH, (IH (<[k:=v]> ∅)).
    rewrite <- (assoc_L (∪)). f_equal.
    rewrite insert_union_singleton_l, insert_empty. reflexivity.
Qed.

Lemma dict_update_lookup_Some (d : gmap string json) (members : list (string * json))
    (k : string) (v : json) :
  dict_of members !! k = Some v -> dict_update d members !! k = Some v.
Proof. intros H. rewrite dict_update_union. now apply lookup_union_Some_l. Qed.

Lemma dict_update_lookup_None (d : gmap string json) (members : list (string * json))
    (k : string) :
  dict_of members !! k = None -> dict_update d members !! k = d !! k.
Proof. intros H. rewrite dict_update_union. now apply lookup_union_r. Qed.

(** One script element merges its dict-shaped blocks, in order. *)
Lemma merge_blocks_dicts (blocks : list json) (data : gmap string json) :
  fold_left merge_block blocks data =
  fold_left dict_update
    (omap (fun b => match b with JObj members => Some members | _ => None end) blocks)
    data.
Proof.
  revert data. induction blocks as [|b blocks IH]; intros data; [reflexivity|].
  simpl. rewrite IH. now destruct b.
Qed.

Lemma json_ld_step_dicts (data : gmap string json) (tag : LdScript) :
  json_ld_step data tag = fold_left dict_update (dict_blocks_of tag) data.
Proof. destruct tag; simpl; [reflexivity | reflexivity | apply merge_blocks_dicts]. Qed.

Lemma extract_json_ld_dicts (scripts : list LdScript) :
  extract_json_ld scripts = fold_left dict_update (dict_blocks scripts) ∅.
Proof.
  unfold extract_json_ld, dict_blocks. generalize (∅ : gmap string json).
  induction scripts as [|tag scripts IH]; intros data; [reflexivity|].
  simpl. now rewrite fold_left_app, IH, json_ld_step_dicts.
Qed.

(** Blocks without the key leave its value alone. *)
Lemma merge_without_key (blocks : list (list (string * json))) (data : gmap string json)
    (k : string) :
  (forall b, b ∈ blocks -> dict_of b !! k = None) ->
  fold_left dict_update blocks data !! k = data !! k.
Proof.
  revert data. induction blocks as [|b blocks IH]; intros data Hno; [reflexivity|].
  simpl. rewrite IH by (intros b' Hb'; apply Hno; now right).
  apply dict_update_lookup_None, Hno. now left.
Qed.

(** C7.  The result is the merge, in document order, of the dict-shaped
    blocks of the page (a list block giving its elements).  For a key, the
    value is that of the last block that has the key, whatever earlier
    blocks say; a key of no block is absent; and an element that has no
    dict-shaped block (no content, not parseable, a scalar, a list without
    dict) changes nothing. *)
Theorem extract_json_ld_last_wins (scripts : list LdScript) :
  extract_json_ld scripts = fold_left dict_update (dict_blocks scripts) ∅
  /\ (forall before b after k v,
        dict_blocks scripts = before ++ b :: after ->
        dict_of b !! k = Some v ->
        (forall b', b' ∈ after -> dict_of b' !! k = None) ->
        extract_json_ld scripts !! k = Some v)
  /\ (forall k,
        (forall b, b ∈ dict_blocks scripts -> dict_of b !! k = None) ->
        extract_json_ld scripts !! k = None)
  /\ (forall s1 tag s2,
        scripts = s1 ++ tag :: s2 ->
        dict_blocks_of tag = [] ->
        extract_json_ld scripts = extract_json_ld (s1 ++ s2)).
Proof.
  repeat split.
  - apply extract_json_ld_dicts.
  - intros before b after k v Hsplit Hb Hafter.
    rewrite extract_json_ld_dicts, Hsplit, fold_left_app. simpl.
    rewrite merge_without_key by exact Hafter.
    now apply dict_update_lookup_Some.
  - intros k Hno. rewrite extract_json_ld_dicts, merge_without_key by exact Hno.
    apply lookup_empty.
  - intros s1 tag s2 -> Htag. rewrite !extract_json_ld_dicts.
    unfold dict_blocks. rewrite !map_app, !concat_app. simpl. now rewrite Htag.
Qed.

(** The theorem on a page with three script elements: the SKU of the
    second dict-shaped block replaces that of the first. *)
Lemma extract_json_ld_two_skus :
  let scripts :=
    [ Parsed (JObj [("name", JStr "Falcon"); ("sku", JStr "FAL-1")]);
      Unparseable;
      Parsed (JArr [JObj [("sku", JStr "FAL-2")]; JStr "note"]) ] in
  dict_blocks scripts
    = [("name", JStr "Falcon"); ("sku", JStr "FAL-1")] :: [("sku", JStr "FAL-2")] :: []
  /\ extract_json_ld scripts !! "sku" = Some (JStr "FAL-2")
  /\ extract_json_ld scripts !! "name" = Some (JStr "Falcon").
Proof.
  cbv zeta. split; [reflexivity|].
  match goal with |- context [extract_json_ld ?s] =>
    destruct (extract_json_ld_last_wins s) as (_ & Hlast & _ & _)
  end.
  split.
  - apply (Hlast [[("name", JStr "Falcon"); ("sku", JStr "FAL-1")]]
                 [("sku", JStr "FAL-2")] []); [reflexivity | reflexivity |].
    intros b' Hb'. inversion Hb'.
  - apply (Hlast [] [("name", JStr "Falcon"); ("sku", JStr "FAL-1")]
                 [[("sku", JStr "FAL-2")]]); [reflexivity | reflexivity |].
    intros b' Hb'. apply list_elem_of_singleton in Hb' as ->. reflexivity.
Defined.

End JsonLd.

(* ===================================================================== *)
(** * The fetcher and the main loop                                       *)
(* ===================================================================== *)

Section Fetch.

Lemma sleeps_in_app (a b : list event) : sleeps_in (a ++ b) = sleeps_in a ++ sleeps_in b.
Proof. apply omap_app. Qed.

Lemma requests_in_app (a b : list event) : requests_in (a ++ b) = requests_in a + requests_in b.
Proof. unfold requests_in. now rewrite omap_app, length_app. Qed.

(** One attempt that fails: the request, the warning, the sleep, and the
    loop goes on with the attempts that remain. *)
Lemma get_attempts_failed (url : string) (attempt : nat) (rest : list nat) (w : World) :
  failed (server w url (requests_made w)) = true ->
  exists line,
    get_attempts url (attempt :: rest) w =
    get_attempts url rest
      {| server := server w; requests_made := S (requests_made w);
         trace := ((trace w ++ [Requested url]) ++ [Printed line])
                    ++ [Slept (RETRY_SLEEP * inject_Z (Z.of_nat attempt))];
         files := files w |}.
Proof.
  intros Hfail. simpl. unfold bind at 1. unfold requests_get at 1. simpl.
  destruct (server w url (requests_made w)) as [resp|msg|e] eqn:Ho; simpl in Hfail.
  - apply negb_true_iff in Hfail. rewrite Hfail. eexists. reflexivity.
  - eexists. reflexivity.
  - discriminate Hfail.
Qed.

(** One attempt in which [requests.get] raises an exception that is no
    [RequestException]: nothing catches it. *)
Lemma get_attempts_raises (url : string) (attempt : nat) (rest : list nat) (w : World)
    (e : exn) :
  server w url (requests_made w) = Raises e ->
  get_attempts url (attempt :: rest) w =
  (inl e,
   {| server := server w; requests_made := S (requests_made w);
      trace := trace w ++ [Requested url]; files := files w |}).
Proof.
  intros Ho. simpl. unfold bind at 1. unfold requests_get at 1. simpl.
  rewrite Ho. reflexivity.
Qed.

(** One attempt that succeeds: the request, and the response is returned. *)
Lemma get_attempts_ok (url : string) (attempt : nat) (rest : list nat) (w : World)
    (resp : Response) :
  server w url (requests_made w) = Returns resp ->
  status_code resp = 200%Z ->
  get_attempts url (attempt :: rest) w =
  (inr (Some resp),
   {| server := server w; requests_made := S (requests_made w);
      trace := trace w ++ [Requested url]; files := files w |}).
Proof.
  intros Ho Hs. simpl. unfold bind at 1. unfold requests_get at 1. simpl.
  rewrite Ho, Hs. reflexivity.
Qed.

(** The loop of [get] on any list of attempts. *)
Lemma get_attempts_spec (url : string) (attempts : list nat) (w : World) :
  exists (res : exn + option Response) (w' : World) (new : list event) (k : nat),
    get_attempts url attempts w = (res, w')
    /\ server w' = server w
    /\ files w' = files w
    /\ trace w' = trace w ++ new
    /\ requests_in new = k
    /\ requests_made w' = requests_made w + k
    /\ k <= length attempts
    /\ (forall i, S i < k -> failed (server w url (requests_made w + i)) = true)
    /\ match res with
       | inr (Some resp) =>
           1 <= k
           /\ server w url (requests_made w + (k - 1)) = Returns resp
           /\ status_code resp = 200%Z
           /\ sleeps_in new =
                map (fun a => RETRY_SLEEP * inject_Z (Z.of_nat a))%Q (take (k - 1) attempts)
       | inr None =>
           k = length attempts
           /\ (forall i, i < k -> failed (server w url (requests_made w + i)) = true)
           /\ sleeps_in new =
                map (fun a => RETRY_SLEEP * inject_Z (Z.of_nat a))%Q attempts
       | inl e =>
           1 <= k
           /\ server w url (requests_made w + (k - 1)) = Raises e
           /\ sleeps_in new =
                map (fun a => RETRY_SLEEP * inject_Z (Z.of_nat a))%Q (take (k - 1) attempts)
       end.
Proof.
  revert w. induction attempts as [|attempt rest IH]; intros w.
  - eexists (inr None), _, _, 0. split; [reflexivity|]. simpl.
    repeat split; try reflexivity; try lia.
  - destruct (failed (server w url (requests_made w))) eqn:Hfail.
    + destruct (get_attempts_failed url attempt rest w Hfail) as [line Hstep].
      rewrite Hstep. clear Hstep.
      match goal with |- context [get_attempts url rest ?w1] =>
        destruct (IH w1) as (res & w' & new & k & Hrun & Hsrv & Hfiles & Htr & Hreq & Hmade & Hk & Hbefore & Hr)
      end.
      simpl in Hsrv, Hfiles, Htr, Hmade, Hbefore, Hr.
      exists res, w',
        ([Requested url; Printed line;
          Slept (RETRY_SLEEP * inject_Z (Z.of_nat attempt))] ++ new), (S k).
      split; [exact Hrun|].
      split; [exact Hsrv|]. split; [exact Hfiles|].
      split; [rewrite Htr, <- !app_assoc; reflexivity|].
      split; [rewrite requests_in_app, Hreq; reflexivity|].
      split; [rewrite Hmade; lia|].
      split; [simpl; lia|].
      assert (Hshift : forall i, requests_made w + S i = S (requests_made w) + i) by (intros; lia).
      split.
      * intros [|i] Hi; [now rewrite Nat.add_0_r|].
        rewrite Hshift. apply Hbefore. lia.
      * destruct res as [e|[resp|]].
        -- destruct Hr as (Hk1 & Hlast & Hsleeps).
           split; [lia|]. split.
           ++ replace (S k - 1) with (S (k - 1)) by lia. now rewrite Hshift.
           ++ rewrite sleeps_in_app, Hsleeps.
              replace (S k - 1) with (S (k - 1)) by lia. reflexivity.
        -- destruct Hr as (Hk1 & Hlast & Hstatus & Hsleeps).
           split; [lia|]. split; [|split; [exact Hstatus|]].
           ++ replace (S k - 1) with (S (k - 1)) by lia. now rewrite Hshift.
           ++ rewrite sleeps_in_app, Hsleeps.
              replace (S k - 1) with (S (k - 1)) by lia. reflexivity.
        -- destruct Hr as (Hlen & Hall & Hsleeps).
           split; [simpl; lia|]. split.
           ++ intros [|i] Hi; [now rewrite Nat.add_0_r|].
              rewrite Hshift. apply Hall. lia.
           ++ rewrite sleeps_in_app, Hsleeps. reflexivity.
    + destruct (server w url (requests_made w)) as [resp|msg|e] eqn:Ho;
        simpl in Hfail; [|discriminate|].
      * apply negb_false_iff, Z.eqb_eq in Hfail.
        rewrite (get_attempts_ok url attempt rest w resp Ho Hfail).
        eexists (inr (Some resp)), _, [Requested url], 1. split; [reflexivity|]. simpl.
        repeat split; try reflexivity; try lia; try exact Hfail.
        now rewrite Nat.add_0_r.
      * rewrite (get_attempts_raises url attempt rest w e Ho).
        eexists (inl e), _, [Requested url], 1. split; [reflexivity|]. simpl.
        repeat split; try reflexivity; try lia.
        now rewrite Nat.add_0_r.
Qed.

End Fetch.

Section MainLoop.

Variable repr_value : json -> string.

Lemma bind_inr {A B : Type} (m : M A) (k : A -> M B) (w w' : World) (a : A) :
  m w = (inr a, w') -> bind m k w = k a w'.
Proof. intros H. unfold bind. now rewrite H. Qed.

Lemma bind_inl {A B : Type} (m : M A) (k : A -> M B) (w w' : World) (e : exn) :
  m w = (inl e, w') -> bind m k w = (inl e, w').
Proof. intros H. unfold bind. now rewrite H. Qed.

Lemma print_run (line : string) (w : World) :
  print line w = (inr tt, with_trace w (trace w ++ [Printed line])).
Proof. reflexivity. Qed.


(** The sleeps after three failures are of 1.5, 3 and 4.5 seconds. *)
Lemma backoff_three : Forall2 Qeq (backoff 3) [3 # 2; 3 # 1; 9 # 2]%Q.
Proof. repeat constructor. Qed.

(** [get] leaves the files alone. *)
Lemma get_returns (url : string) (w : World) :
  exists res w', get url w = (res, w') /\ files w' = files w.
Proof.
  destruct (get_attempts_spec url (seq 1 MAX_RETRIES) w)
    as (res & w' & new & k & Hrun & _ & Hfiles & _).
  exists res, w'. now split.
Qed.

Lemma bind_run {A B : Type} (m : M A) (k : A -> M B) (w w' : World) (res : exn + A) :
  m w = (res, w') ->
  bind m k w = match res with inr a => k a w' | inl e => (inl e, w') end.
Proof. intros H. unfold bind. rewrite H. now destruct res. Qed.


(** [parse_product] leaves the files alone, whatever it returns or raises. *)
Lemma parse_product_files (url : string) (w : World) :
  files (parse_product repr_value url w).2 = files w.
Proof.
  destruct (get_returns url w) as (res & w' & Hget & Hfiles).
  unfold parse_product. rewrite (bind_run _ _ _ _ _ Hget).
  destruct res as [e|[resp|]]; [exact Hfiles | | exact Hfiles].
  unfold bind, lift. destruct (parsed resp) as [e|soup]; [exact Hfiles|].
  now destruct (offers_price (extract_json_ld (ld_scripts soup))).
Qed.



(** The loop of [main] leaves the files alone. *)
Lemma scrape_files (urls : list string) (products : list ProductData) (w : World) :
  files (scrape repr_value urls products w).2 = files w.
Proof.
  revert products w. induction urls as [|url urls IH]; intros products w; [reflexivity|].
  simpl. rewrite (bind_inr _ _ _ _ _ (print_run _ w)).
  pose proof (parse_product_files url
                (with_trace w (trace w ++ [Printed ("[INFO] Scraping: " +:+ url)]))) as Hp.
  unfold bind at 1.
  destruct (parse_product repr_value url _) as [[e|[p|]] w1]; simpl in Hp.
  - exact Hp.
  - rewrite (bind_inr _ _ _ _ _ (print_run _ w1)), IH. exact Hp.
  - rewrite (bind_inr _ _ _ _ _ (print_run _ w1)), IH. exact Hp.
Qed.

(** Rows written one after the other are appended to the file. *)
Lemma for_each_writerow (name : string) (rows : list (list json)) (w : World) :
  exists w',
    for_each rows (writerow name) w = (inr tt, w')
    /\ trace w' = trace w
    /\ (forall content,
          files w !! name = Some content ->
          files w' = <[name := content ++ rows]> (files w)).
Proof.
  revert w. induction rows as [|row rows IH]; intros w.
  - exists w. repeat split. intros content Hc.
    now rewrite app_nil_r, insert_id.
  - simpl. unfold bind at 1. unfold writerow at 1.
    match goal with |- context [for_each rows (writerow name) ?w1] =>
      destruct (IH w1) as (w' & Hrun & Htr & Hfiles)
    end.
    exists w'. split; [exact Hrun|]. split; [exact Htr|].
    intros content Hc. simpl in Hfiles.
    rewrite (Hfiles (content ++ [row])).
    + now rewrite insert_insert_eq, <- app_assoc.
    + rewrite Hc. simpl. apply lookup_insert_eq.
Qed.

Lemma for_each_product (name : string) (products : list ProductData) (w : World) :
  exists w',
    for_each products (fun prod => for_each (product_to_rows prod) (writerow name)) w
      = (inr tt, w')
    /\ trace w' = trace w
    /\ (forall content,
          files w !! name = Some content ->
          files w' = <[name := content ++ concat (map product_to_rows products)]> (files w)).
Proof.
  revert w. induction products as [|prod products IH]; intros w.
  - exists w. repeat split. intros content Hc.
    simpl. now rewrite app_nil_r, insert_id.
  - simpl.
    destruct (for_each_writerow name (product_to_rows prod) w) as (w1 & Hrun1 & Htr1 & Hfiles1).
    rewrite (bind_inr _ _ _ _ _ Hrun1).
    destruct (IH w1) as (w' & Hrun & Htr & Hfiles).
    exists w'. split; [exact Hrun|]. split; [congruence|].
    intros content Hc.
    rewrite (Hfiles (content ++ product_to_rows prod)).
    + rewrite (Hfiles1 content Hc). now rewrite insert_insert_eq, <- app_assoc.
    + rewrite (Hfiles1 content Hc). apply lookup_insert_eq.
Qed.

Lemma open_w_run (name : string) (w : World) :
  exists w',
    open_w name w = (inr tt, w')
    /\ trace w' = trace w
    /\ files w' = <[name := []]> (files w).
Proof. eexists. repeat split. Qed.

Lemma writerow_run (name : string) (row : list json) (w : World)
    (content : list (list json)) :
  files w !! name = Some content ->
  exists w',
    writerow name row w = (inr tt, w')
    /\ trace w' = trace w
    /\ files w' = <[name := content ++ [row]]> (files w).
Proof.
  intros Hc. eexists. split; [reflexivity|]. split; [reflexivity|].
  cbn [files]. now rewrite Hc.
Qed.

(** [write_csv] replaces the file by the header and the rows. *)
Lemma write_csv_run (products : list ProductData) (w : World) :
  exists w',
    write_csv products w = (inr tt, w')
    /\ trace w' = trace w
    /\ files w' =
         <[OUTPUT_CSV := map JStr CSV_HEADERS :: concat (map product_to_rows products)]> (files w).
Proof.
  unfold write_csv.
  destruct (open_w_run OUTPUT_CSV w) as (w0 & Hrun0 & Htr0 & Hf0).
  rewrite (bind_inr _ _ _ _ _ Hrun0).
  destruct (writerow_run OUTPUT_CSV (map JStr CSV_HEADERS) w0 [])
    as (w1 & Hrun1 & Htr1 & Hf1); [rewrite Hf0; apply lookup_insert_eq|].
  rewrite (bind_inr _ _ _ _ _ Hrun1).
  destruct (for_each_product OUTPUT_CSV products w1) as (w' & Hrun & Htr & Hfiles).
  exists w'. split; [exact Hrun|]. split; [congruence|].
  rewrite (Hfiles ([] ++ [map JStr CSV_HEADERS])) by (rewrite Hf1; apply lookup_insert_eq).
  rewrite Hf1, Hf0, !insert_insert_eq. reflexivity.
Qed.

(** C9.  When the loop over the URLs ends with an empty list of products,
    [main] prints the error line last and returns, and the files are what
    they were; it writes the file, header first and then the rows of each
    product in turn, exactly when the list is not empty.  (No file is
    written either when [main] is given no URL, or when an exception ends
    the loop.) *)
Theorem main_writes_only_products (urls : list string) (w : World) :
  (forall w1,
      urls <> [] ->
      scrape repr_value urls [] w = (inr [], w1) ->
      exists w',
        main repr_value urls w = (inr tt, w')
        /\ last (trace w') = Some (Printed "[ERROR] No products parsed. Exiting.")
        /\ files w' = files w)
  /\ (forall p ps w1,
        scrape repr_value urls [] w = (inr (p :: ps), w1) ->
        exists w',
          main repr_value urls w = (inr tt, w')
          /\ files w' =
               <[OUTPUT_CSV := map JStr CSV_HEADERS
                               :: concat (map product_to_rows (p :: ps))]> (files w))
  /\ (urls = [] -> files (main repr_value urls w).2 = files w)
  /\ (forall e w1,
        scrape repr_value urls [] w = (inl e, w1) ->
        main repr_value urls w = (inl e, w1) /\ files w1 = files w).
Proof.
  pose proof (scrape_files urls [] w) as Hsf.
  split; [|split; [|split]].
  - intros w1 Hne Hrun. destruct urls as [|url urls]; [contradiction|].
    unfold main. rewrite (bind_inr _ _ _ _ _ Hrun).
    rewrite (bind_inr _ _ _ _ _ (print_run _ w1)).
    eexists. split; [reflexivity|]. simpl. split; [apply last_snoc|].
    rewrite Hrun in Hsf. exact Hsf.
  - intros p ps w1 Hrun. destruct urls as [|url urls]; [discriminate|].
    unfold main. rewrite (bind_inr _ _ _ _ _ Hrun).
    destruct (write_csv_run (p :: ps) w1) as (w2 & Hw & _ & Hfiles).
    rewrite (bind_inr _ _ _ _ _ Hw), print_run.
    eexists. split; [reflexivity|]. simpl.
    rewrite Hrun in Hsf. simpl in Hsf. now rewrite Hfiles, Hsf.
  - intros ->. reflexivity.
  - intros e w1 Hrun. destruct urls as [|url urls]; [discriminate|].
    rewrite Hrun in Hsf. split; [|exact Hsf].
    unfold main. now rewrite (bind_inl _ _ _ _ _ Hrun).
Qed.

(** C1 (the code departs from the claim).  The page is fetched at the first
    attempt; its JSON-LD block gives the offers as a list whose first
    element is a string.  [offers[0].get("price")] is then a method call on
    a [str]: [parse_product] raises [AttributeError], nothing catches it
    in [main], no FAIL line is printed and the run ends with the
    exception. *)
Theorem parse_product_raises_on_offer_reference :
  let url := "https://shop.example/falcon" in
  let w := world_answering (ok_response page_with_offer_reference) in
  offers_price (extract_json_ld (ld_scripts page_with_offer_reference))
    = inl (AttributeError "get")
  /\ (parse_product repr_value url w).1 = inl (AttributeError "get")
  /\ (main repr_value [url] w).1 = inl (AttributeError "get")
  /\ trace (main repr_value [url] w).2
       = [Printed "[INFO] Scraping: https://shop.example/falcon"; Requested url].
Proof. cbv zeta. repeat split; vm_compute; reflexivity. Qed.

End MainLoop.

(* ===================================================================== *)
(** * Runs                                                                *)
(* ===================================================================== *)

Section Runs.



(** The theorem on [main] on that site: no product, the error line, no
    file. *)
Lemma main_writes_nothing_when_site_is_down :
  exists w1 w',
    [falcon_url] <> []
    /\ scrape (fun _ => EmptyString) [falcon_url] [] down = (inr [], w1)
    /\ main (fun _ => EmptyString) [falcon_url] down = (inr tt, w')
    /\ last (trace w') = Some (Printed "[ERROR] No products parsed. Exiting.")
    /\ files w' = files down.
Proof.
  assert (Hne : [falcon_url] <> []) by discriminate.
  eexists.
  assert (Hrun : scrape (fun _ => EmptyString) [falcon_url] [] down = (inr [], _))
    by (vm_compute; reflexivity).
  destruct (proj1 (main_writes_only_products (fun _ => EmptyString) [falcon_url] down)
                  _ Hne Hrun) as (w' & Hmain & Hlast & Hfiles).
  exists w'.
  exact (conj Hne (conj Hrun (conj Hmain (conj Hlast Hfiles)))).
Defined.

(** A page with a title and one image: the file has the header and one
    row. *)
Example main_writes_one_product :
  let page :=
    {| title_string := Some "Falcon 60V"; h1_text := None; ld_scripts := [];
       desc_container := None; spec_headings := [];
       meta_price_amount := Some (Some "1999.00"); meta_price := None;
       imgs := [plain_img "https://shop.example/falcon.jpg"] |} in
  let w := world_answering (ok_response page) in
  exists row,
    files (main (fun _ => EmptyString) [falcon_url] w).2 !! OUTPUT_CSV
      = Some [map JStr CSV_HEADERS; row]
    /\ cell row "Handle" = Some (JStr "philodo-falcon-60v")
    /\ cell row "Variant Price" = Some (JStr "1999.00")
    /\ cell row "Image Src" = Some (JStr "https://shop.example/falcon.jpg")
    /\ cell row "Image Position" = Some (JStr "1").
Proof.
  cbv zeta. eexists. split; [vm_compute; reflexivity|].
  split; [|split; [|split]]; vm_compute; reflexivity.
Qed.

End Runs.

(* ===================================================================== *)
(** * Further properties: [clean_html_text]                               *)
(* ===================================================================== *)

Section CleanText.
Import PyStr PyStrFacts Clean.

Lemma is_space_nl : is_space nl = true.
Proof. reflexivity. Qed.

Lemma eqb_nl_space (c : ascii) : Ascii.eqb c nl = true -> is_space c = true.
Proof. intros H. apply Ascii.eqb_eq in H. now subst. Qed.

Lemma after_last_nl_None (s : string) : after_last_nl s = None -> has_nl s = false.
Proof.
  induction s as [|c s IH]; simpl; [reflexivity|].
  destruct (after_last_nl s); [discriminate|].
  destruct (Ascii.eqb c nl); [discriminate|]. intros _. now apply IH.
Qed.

Lemma after_last_nl_Some (s r : string) : after_last_nl s = Some r -> has_nl r = false.
Proof.
  revert r. induction s as [|c s IH]; intros r; simpl; [discriminate|].
  destruct (after_last_nl s) as [r'|] eqn:E.
  - intros [= <-]. now apply IH.
  - destruct (Ascii.eqb c nl); [|discriminate].
    intros [= <-]. now apply after_last_nl_None.
Qed.

Lemma after_last_nl_has_nl (s r : string) : after_last_nl s = Some r -> has_nl s = true.
Proof.
  revert r. induction s as [|c s IH]; intros r; simpl; [discriminate|].
  destruct (after_last_nl s) as [r'|] eqn:E.
  - intros _. rewrite (IH r' eq_refl). apply orb_true_r.
  - destruct (Ascii.eqb c nl); [reflexivity|discriminate].
Qed.

Lemma no_nl_no_pair (c : ascii) (s : string) :
  has_nl s = false -> space_before_nl (String c s) = false.
Proof.
  revert c. induction s as [|d s IH]; intros c H; simpl in *.
  - now rewrite andb_false_r.
  - apply orb_false_iff in H as [Hd Hs].
    rewrite Hd, andb_false_r. simpl. apply (IH d Hs).
Qed.

Lemma space_before_nl_tail (c : ascii) (s : string) :
  space_before_nl (String c s) = false -> space_before_nl s = false.
Proof. simpl. intros H. now apply orb_false_iff in H as [_ H]. Qed.

Lemma fix_run_good (run : string) : space_before_nl (fix_run run) = false.
Proof.
  destruct run as [|c rest]; [reflexivity|]. unfold fix_run.
  destruct (after_last_nl rest) as [r|] eqn:E.
  - apply no_nl_no_pair. now apply after_last_nl_Some in E.
  - apply no_nl_no_pair. now apply after_last_nl_None.
Qed.

(** Two clean texts joined by a character that is no white space. *)
Lemma space_before_nl_join (a b : string) (c : ascii) :
  space_before_nl a = false -> is_space c = false -> space_before_nl b = false ->
  space_before_nl (a +:+ String c b) = false.
Proof.
  intros Ha Hc Hb. induction a as [|d a IH].
  - simpl. now rewrite Hc, Hb.
  - pose proof (space_before_nl_tail _ _ Ha) as Ha'.
    change (String d a +:+ String c b) with (String d (a +:+ String c b)).
    cbn [space_before_nl]. rewrite (IH Ha'), orb_false_r.
    destruct a as [|e a]; simpl.
    + destruct (Ascii.eqb c nl) eqn:E; [|apply andb_false_r].
      apply eqb_nl_space in E. congruence.
    + simpl in Ha. apply orb_false_iff in Ha as [Ha _]. exact Ha.
Qed.

Lemma sub_space_nl_from_good (pending s : string) :
  space_before_nl (sub_space_nl_from pending s) = false.
Proof.
  revert pending. induction s as [|c s IH]; intros pending; simpl.
  - apply fix_run_good.
  - destruct (is_space c) eqn:Hc; [apply IH|].
    apply space_before_nl_join; [apply fix_run_good | exact Hc | apply IH].
Qed.

Lemma lstrip_by_good (p : ascii -> bool) (s : string) :
  space_before_nl s = false -> space_before_nl (lstrip_by p s) = false.
Proof.
  induction s as [|c s IH]; intros H; [reflexivity|].
  cbn [lstrip_by]. destruct (p c); [|exact H].
  apply IH. now apply space_before_nl_tail in H.
Qed.

Lemma rstrip_by_good (p : ascii -> bool) (s : string) :
  space_before_nl s = false -> space_before_nl (rstrip_by p s) = false.
Proof.
  induction s as [|c s IH]; intros H; [reflexivity|].
  pose proof (IH (space_before_nl_tail _ _ H)) as IH'.
  cbn [rstrip_by]. destruct (rstrip_by p s) as [|d r] eqn:E.
  - destruct (p c); [reflexivity|]. simpl. now rewrite andb_false_r.
  - cbn [space_before_nl] in *. rewrite IH', orb_false_r.
    assert (Hd : first_char s = Some d)
      by (apply (first_char_rstrip_by p); now rewrite E).
    destruct s as [|d' s']; [discriminate|]. injection Hd as ->.
    apply orb_false_iff in H as [H _]. exact H.
Qed.

(** On a text without white space before a newline, the second
    substitution finds nothing to replace. *)
Lemma sub_blank_lines_from_good (s : string) :
  space_before_nl s = false ->
  sub_blank_lines_from 0 s = s
  /\ (first_char s <> Some nl -> sub_blank_lines_from 1 s = String nl s).
Proof.
  induction s as [|c s IH]; intros H; [split; reflexivity|].
  pose proof (IH (space_before_nl_tail _ _ H)) as [IH0 IH1].
  cbn [sub_blank_lines_from]. destruct (Ascii.eqb c nl) eqn:Hc.
  - apply Ascii.eqb_eq in Hc. subst c. split; [|intros Hf; now elim Hf].
    apply IH1. intros Hf. destruct s as [|d s]; [discriminate|].
    injection Hf as ->. simpl in H. discriminate H.
  - split; [|intros _]; simpl; now rewrite IH0.
Qed.

Lemma no_blank_line (s : string) :
  space_before_nl s = false -> contains (String nl (String nl EmptyString)) s = false.
Proof.
  induction s as [|c s IH]; intros H; [reflexivity|].
  cbn [contains]. rewrite (IH (space_before_nl_tail _ _ H)), orb_false_r.
  cbn [startswith]. destruct (Ascii.eqb nl c) eqn:Hc; [|reflexivity].
  apply Ascii.eqb_eq in Hc. subst c.
  destruct s as [|d s]; [reflexivity|].
  simpl in H. apply orb_false_iff in H as [H _].
  rewrite (Ascii.eqb_sym nl d), H. reflexivity.
Qed.

Lemma sub_passes_good (text : string) :
  space_before_nl (sub_blank_lines (sub_space_nl text)) = false.
Proof.
  unfold sub_blank_lines, sub_space_nl.
  rewrite (proj1 (sub_blank_lines_from_good _ (sub_space_nl_from_good _ _))).
  apply sub_space_nl_from_good.
Qed.

Lemma clean_html_text_good (text : string) :
  space_before_nl (clean_html_text text) = false.
Proof.
  unfold clean_html_text, strip, strip_by.
  apply rstrip_by_good, lstrip_by_good, sub_passes_good.
Qed.

(** X1.  The text that [clean_html_text] returns has no white space at
    either end and no white space directly before a newline: in
    particular no blank line is left in it. *)
Theorem clean_html_text_shape (text : string) :
  let out := clean_html_text text in
  space_before_nl out = false
  /\ contains (String nl (String nl EmptyString)) out = false
  /\ (forall c, first_char out = Some c -> is_space c = false)
  /\ (forall c, last_char out = Some c -> is_space c = false).
Proof.
  cbv zeta. split; [apply clean_html_text_good|].
  split; [apply no_blank_line, clean_html_text_good|].
  unfold clean_html_text, strip, strip_by. split; intros c Hc.
  - now apply first_char_rstrip_by, first_char_lstrip_by in Hc.
  - now apply last_char_rstrip_by in Hc.
Qed.

(** X2.  After the first substitution every newline stands at the start
    or after a character that is no white space, so that the second
    substitution (three newlines or more) never changes the text:
    [clean_html_text] is the first substitution followed by [strip]. *)
Theorem second_substitution_is_inert (text : string) :
  sub_blank_lines (sub_space_nl text) = sub_space_nl text
  /\ clean_html_text text = strip (sub_space_nl text).
Proof.
  assert (H : sub_blank_lines (sub_space_nl text) = sub_space_nl text).
  { unfold sub_blank_lines, sub_space_nl.
    apply (sub_blank_lines_from_good _ (sub_space_nl_from_good _ _)). }
  split; [exact H|]. unfold clean_html_text. now rewrite H.
Qed.

Lemma append_snoc (a b : string) (c : ascii) :
  (a +:+ String c EmptyString) +:+ b = a +:+ String c b.
Proof.
  induction a as [|d a IH]; [reflexivity|].
  change (String d ((a +:+ String c EmptyString) +:+ b) = String d (a +:+ String c b)).
  now f_equal.
Qed.

Lemma append_empty (a : string) : a +:+ EmptyString = a.
Proof.
  induction a as [|d a IH]; [reflexivity|].
  change (String d (a +:+ EmptyString) = String d a). now f_equal.
Qed.

Lemma all_chars_snoc (p : ascii -> bool) (a : string) (c : ascii) :
  all_chars p a = true -> p c = true -> all_chars p (a +:+ String c EmptyString) = true.
Proof. intros Ha Hc. rewrite all_chars_app, Ha. simpl. now rewrite Hc. Qed.

Lemma space_before_nl_app_l (a b : string) :
  space_before_nl (a +:+ b) = false -> space_before_nl a = false.
Proof.
  induction a as [|c a IH]; intros H; [reflexivity|].
  change (String c a +:+ b) with (String c (a +:+ b)) in H.
  cbn [space_before_nl] in *. apply orb_false_iff in H as [Hc Ht].
  rewrite (IH Ht), orb_false_r.
  destruct a as [|d a]; [apply andb_false_r | exact Hc].
Qed.

Lemma space_before_nl_app_r (a b : string) :
  space_before_nl (a +:+ b) = false -> space_before_nl b = false.
Proof.
  induction a as [|c a IH]; intros H; [exact H|].
  apply IH. exact (space_before_nl_tail _ _ H).
Qed.

(** In a run of white space, a newline after the first character has
    white space before it. *)
Lemma run_with_nl (c : ascii) (s : string) :
  is_space c = true -> all_chars is_space s = true -> has_nl s = true ->
  space_before_nl (String c s) = true.
Proof.
  revert c. induction s as [|d s IH]; intros c Hc Hs Hnl; [discriminate|].
  simpl in Hs. apply andb_true_iff in Hs as [Hd Hs].
  cbn [space_before_nl has_nl] in *. rewrite Hc.
  destruct (Ascii.eqb d nl); [reflexivity|]. simpl in Hnl.
  rewrite andb_false_r. simpl. exact (IH d Hd Hs Hnl).
Qed.

Lemma fix_run_id (run : string) :
  all_chars is_space run = true -> space_before_nl run = false -> fix_run run = run.
Proof.
  destruct run as [|c rest]; [reflexivity|]. intros Hall Hgood.
  simpl in Hall. apply andb_true_iff in Hall as [Hc Hrest].
  unfold fix_run. destruct (after_last_nl rest) as [r|] eqn:E; [|reflexivity].
  apply after_last_nl_has_nl in E.
  rewrite (run_with_nl c rest Hc Hrest E) in Hgood. discriminate.
Qed.

(** On a text without white space before a newline, the first
    substitution finds nothing to replace either. *)
Lemma sub_space_nl_from_id (pending s : string) :
  all_chars is_space pending = true ->
  space_before_nl (pending +:+ s) = false ->
  sub_space_nl_from pending s = pending +:+ s.
Proof.
  revert pending. induction s as [|c s IH]; intros pending Hall Hgood.
  - rewrite append_empty in *. simpl. now apply fix_run_id.
  - cbn [sub_space_nl_from]. destruct (is_space c) eqn:Hc.
    + rewrite IH; [apply append_snoc | now apply all_chars_snoc | now rewrite append_snoc].
    + rewrite (fix_run_id pending Hall (space_before_nl_app_l _ _ Hgood)).
      rewrite (IH EmptyString eq_refl); [reflexivity|].
      apply space_before_nl_app_r in Hgood. exact (space_before_nl_tail _ _ Hgood).
Qed.

Lemma lstrip_by_id (p : ascii -> bool) (s : string) :
  (forall c, first_char s = Some c -> p c = false) -> lstrip_by p s = s.
Proof.
  destruct s as [|c s]; [reflexivity|]. intros H. simpl.
  now rewrite (H c eq_refl).
Qed.

Lemma rstrip_by_id (p : ascii -> bool) (s : string) :
  (forall c, last_char s = Some c -> p c = false) -> rstrip_by p s = s.
Proof.
  induction s as [|c s IH]; [reflexivity|]. intros H.
  cbn [rstrip_by]. destruct s as [|d s].
  - simpl. now rewrite (H c eq_refl).
  - rewrite IH by (intros e He; apply H; exact He). reflexivity.
Qed.

Lemma strip_by_idempotent (p : ascii -> bool) (s : string) :
  strip_by p (strip_by p s) = strip_by p s.
Proof.
  unfold strip_by at 1. rewrite lstrip_by_id.
  - apply rstrip_by_id. intros c Hc. unfold strip_by in Hc.
    now apply last_char_rstrip_by in Hc.
  - intros c Hc. unfold strip_by in Hc.
    now apply first_char_rstrip_by, first_char_lstrip_by in Hc.
Qed.

(** X3.  [clean_html_text] is idempotent: a cleaned text is returned as it
    is. *)
Theorem clean_html_text_idempotent (text : string) :
  clean_html_text (clean_html_text text) = clean_html_text text.
Proof.
  pose proof (clean_html_text_good text) as Hgood.
  set (u := clean_html_text text) in *.
  assert (Hsub : sub_space_nl u = u)
    by (apply (sub_space_nl_from_id EmptyString u eq_refl Hgood)).
  unfold clean_html_text at 1. rewrite Hsub.
  unfold sub_blank_lines. rewrite (proj1 (sub_blank_lines_from_good u Hgood)).
  subst u. unfold clean_html_text, strip. apply strip_by_idempotent.
Qed.

Example clean_html_text_paragraphs :
  clean_html_text ("<p>a</p>  " +:+ newline +:+ newline +:+ newline +:+ "<p>b</p>" +:+ newline)
  = "<p>a</p>" +:+ newline +:+ "<p>b</p>".
Proof. reflexivity. Qed.

End CleanText.

(* ===================================================================== *)
(** * Further properties: the handle                                      *)
(* ===================================================================== *)

Section HandleAgain.
Import PyStr PyStrFacts.

Lemma lower_char_slug (c : ascii) : Re.slug_char c = true -> lower_char c = c.
Proof.
  destruct c as [b0 b1 b2 b3 b4 b5 b6 b7].
  destruct b0, b1, b2, b3, b4, b5, b6, b7; vm_compute; intros H;
    first [reflexivity | discriminate H].
Qed.

Lemma lower_slug (s : string) : all_chars Re.slug_char s = true -> lower s = s.
Proof.
  induction s as [|c s IH]; [reflexivity|]. simpl.
  intros H. apply andb_true_iff in H as [Hc Hs].
  now rewrite (lower_char_slug c Hc), (IH Hs).
Qed.

Lemma sub_nonslug_from_slug (in_run : bool) (s : string) :
  all_chars Re.slug_char s = true -> Re.sub_nonslug_from in_run s = s.
Proof.
  revert in_run. induction s as [|c s IH]; intros in_run; [reflexivity|]. simpl.
  intros H. apply andb_true_iff in H as [Hc Hs].
  now rewrite Hc, (IH false Hs).
Qed.

(** A string that has the form of a slug is its own slug. *)
Lemma slug_fixed_point (s : string) :
  all_chars Re.slug_char s = true ->
  first_char s <> Some hyphen ->
  last_char s <> Some hyphen ->
  slug s = s.
Proof.
  intros Hchars Hfirst Hlast. unfold slug, Re.sub_nonslug.
  rewrite (lower_slug s Hchars), (sub_nonslug_from_slug false s Hchars).
  unfold strip_by. rewrite lstrip_by_id.
  - apply rstrip_by_id. intros c Hc. unfold is_hyphen.
    apply Ascii.eqb_neq. intros ->. now apply Hlast.
  - intros c Hc. unfold is_hyphen.
    apply Ascii.eqb_neq. intros ->. now apply Hfirst.
Qed.

(** X4.  A string of [a-z0-9-] that mentions the brand and has no hyphen
    at either end is its own handle; so the handle of a title whose slug
    is not empty is its own handle: deriving a handle twice changes
    nothing. *)
Theorem make_handle_stable :
  (forall s : string,
      all_chars Re.slug_char s = true ->
      first_char s <> Some hyphen ->
      last_char s <> Some hyphen ->
      contains "philodo" s = true ->
      make_handle s = s)
  /\ (forall title : string,
        slug title <> EmptyString ->
        make_handle (make_handle title) = make_handle title).
Proof.
  assert (Hfix : forall s : string,
             all_chars Re.slug_char s = true ->
             first_char s <> Some hyphen ->
             last_char s <> Some hyphen ->
             contains "philodo" s = true ->
             make_handle s = s).
  { intros s Hchars Hfirst Hlast Hbrand. unfold make_handle.
    rewrite (slug_fixed_point s Hchars Hfirst Hlast). cbv zeta.
    now rewrite Hbrand. }
  split; [exact Hfix|].
  intros title Hne. apply Hfix.
  - apply make_handle_chars.
  - apply make_handle_first_char.
  - now apply make_handle_last_char.
  - apply make_handle_brand.
Qed.

(** The theorem on a handle and on a title. *)
Lemma make_handle_stable_falcon :
  make_handle "philodo-falcon-60v" = "philodo-falcon-60v"
  /\ slug "Falcon 60V" <> EmptyString
  /\ make_handle (make_handle "Falcon 60V") = make_handle "Falcon 60V".
Proof.
  destruct make_handle_stable as [Hfix Hidem].
  assert (Hne : slug "Falcon 60V" <> EmptyString) by (vm_compute; discriminate).
  split; [|split; [exact Hne | exact (Hidem "Falcon 60V" Hne)]].
  apply Hfix; [reflexivity | vm_compute; discriminate | vm_compute; discriminate | reflexivity].
Defined.

End HandleAgain.

(* ===================================================================== *)
(** * Further properties: the image extractor                             *)
(* ===================================================================== *)

Section ImagesAgain.
Import PyStr PyStrFacts.

Lemma filter_all {A : Type} (P : A -> Prop) `{!forall x, Decision (P x)} (l : list A) :
  (forall y, y ∈ l -> P y) -> filter P l = l.
Proof.
  induction l as [|x l IH]; intros Hall; [reflexivity|].
  rewrite filter_cons_True by (apply Hall; left).
  f_equal. apply IH. intros y Hy. apply Hall. now right.
Qed.

Lemma first_occurrences_NoDup (l : list string) : NoDup l -> first_occurrences l = l.
Proof.
  induction 1 as [|x l Hx Hl IH]; simpl; [reflexivity|].
  rewrite IH. f_equal. apply filter_all. intros y Hy ->. contradiction.
Qed.

Lemma first_occurrences_app (a b : list string) :
  first_occurrences (a ++ b) =
  first_occurrences a ++ filter (fun y => y ∉ a) (first_occurrences b).
Proof.
  induction a as [|x a IH]; simpl.
  - symmetry. apply filter_all. intros y _. apply not_elem_of_nil.
  - f_equal. rewrite IH, filter_app. f_equal.
    rewrite list_filter_filter. apply list_filter_iff.
    intros y. rewrite not_elem_of_cons. tauto.
Qed.

(** X5.  When the accepted URLs of a page are distinct and at most 12, the
    output is the list of the accepted URLs, unchanged. *)
Theorem extract_images_keeps_distinct (imgs : list Img) :
  NoDup (collect_urls imgs) ->
  length (collect_urls imgs) <= 12 ->
  extract_images imgs = collect_urls imgs.
Proof.
  intros Hnodup Hlen. unfold extract_images.
  rewrite dedupe_first_occurrences, (first_occurrences_NoDup _ Hnodup).
  now apply take_ge.
Qed.

Lemma extract_images_keeps_three :
  NoDup (collect_urls [plain_img "a.jpg"; plain_img "b.jpg"; plain_img "c.jpg"])
  /\ extract_images [plain_img "a.jpg"; plain_img "b.jpg"; plain_img "c.jpg"]
     = collect_urls [plain_img "a.jpg"; plain_img "b.jpg"; plain_img "c.jpg"].
Proof.
  assert (Hnodup : NoDup (collect_urls
                     [plain_img "a.jpg"; plain_img "b.jpg"; plain_img "c.jpg"])).
  { vm_compute. apply NoDup_ListNoDup. repeat constructor; simpl; intuition discriminate. }
  split; [exact Hnodup|].
  apply (extract_images_keeps_distinct _ Hnodup). vm_compute. lia.
Defined.

(** X6.  The images picked on a page are picked first, and in the same
    order, on any page that continues it: what follows in the document
    never removes or reorders an earlier pick. *)
Theorem extract_images_prefix (before after : list Img) :
  extract_images before `prefix_of` extract_images (before ++ after).
Proof.
  unfold extract_images. rewrite !dedupe_first_occurrences, !collect_urls_omap.
  rewrite omap_app, first_occurrences_app, take_app.
  eexists. reflexivity.
Qed.

(** X7.  An element without a non-empty [src], [data-src] or
    [data-original] is skipped, whatever its [srcset]; the first of the
    three attributes that is not empty is the one that is tested and, with
    no srcset, appended. *)
Theorem img_without_url_is_skipped :
  (forall (img : Img) (before after : list Img),
      attr_truthy (src img) = false ->
      attr_truthy (data_src img) = false ->
      attr_truthy (data_original img) = false ->
      extract_images (before ++ img :: after) = extract_images (before ++ after))
  /\ (forall (img : Img) (u : string),
        attr_truthy (srcset img) = false ->
        img_url img = Some u ->
        (src img = Some u)
        \/ (attr_truthy (src img) = false /\ data_src img = Some u)
        \/ (attr_truthy (src img) = false /\ attr_truthy (data_src img) = false
            /\ data_original img = Some u)).
Proof.
  split.
  - intros img before after H1 H2 H3.
    unfold extract_images. rewrite !collect_urls_omap, !omap_app. simpl.
    assert (Hnone : img_url img = None); [|now rewrite Hnone].
    unfold img_url, chosen_src, attr_or. rewrite H1, H2.
    destruct (data_original img) as [s|]; [|reflexivity].
    simpl in H3. now rewrite H3.
  - intros img u Hss Hurl.
    destruct (img_url_without_srcset img u Hss Hurl) as [Hsrc _].
    unfold chosen_src, attr_or in Hsrc.
    destruct (attr_truthy (src img)) eqn:E1; cbn iota in Hsrc.
    + rewrite ?E1 in Hsrc. now left.
    + destruct (attr_truthy (data_src img)) eqn:E2; cbn iota in Hsrc.
      * right. now left.
      * destruct (attr_truthy (data_original img)); right; right; now repeat split.
Qed.

Lemma img_with_srcset_only_is_skipped :
  let img := {| src := None; data_src := Some EmptyString; data_original := None;
                srcset := Some "a.jpg 1x,b.jpg 2x" |} in
  attr_truthy (src img) = false
  /\ extract_images ([plain_img "x.jpg"] ++ img :: [plain_img "y.jpg"])
     = extract_images ([plain_img "x.jpg"] ++ [plain_img "y.jpg"]).
Proof.
  cbv zeta. split; [reflexivity|].
  apply (proj1 img_without_url_is_skipped); reflexivity.
Defined.

Lemma split_nonempty (sep : ascii) (s : string) : split sep s <> [].
Proof.
  destruct s as [|c s]; simpl; [discriminate|].
  destruct (Ascii.eqb c sep); [discriminate|].
  destruct (split sep s); discriminate.
Qed.

(** [(a + sep + b).split(sep)] is [a.split(sep) + b.split(sep)]. *)
Lemma split_app_sep (sep : ascii) (a b : string) :
  split sep (a +:+ String sep b) = split sep a ++ split sep b.
Proof.
  induction a as [|c a IH].
  - simpl. now rewrite Ascii.eqb_refl.
  - change (String c a +:+ String sep b) with (String c (a +:+ String sep b)).
    cbn [split]. rewrite IH. destruct (Ascii.eqb c sep); [reflexivity|].
    pose proof (split_nonempty sep a) as Hne.
    destruct (split sep a) as [|w ws]; [contradiction|reflexivity].
Qed.

(** [s.split(sep)] is [[s]] when [sep] does not occur in [s]. *)
Lemma split_without_sep (sep : ascii) (s : string) :
  all_chars (is_not sep) s = true -> split sep s = [s].
Proof.
  induction s as [|c s IH]; [reflexivity|]. simpl. unfold is_not at 1.
  intros H. apply andb_true_iff in H as [Hc Hs].
  apply negb_true_iff in Hc. now rewrite Hc, (IH Hs).
Qed.

Lemma srcset_candidates_last (ss piece : string) :
  ss = piece \/ (exists pre, ss = pre +:+ String comma piece) ->
  all_chars (is_not comma) piece = true ->
  nonempty (strip piece) = true ->
  last (srcset_candidates ss) = Some (hd EmptyString (split space piece)).
Proof.
  intros Hss Hpiece Hblank. unfold srcset_candidates.
  assert (Hsplit : exists init, split comma ss = init ++ [piece]).
  { destruct Hss as [-> | [pre ->]].
    - exists []. now apply split_without_sep.
    - exists (split comma pre).
      now rewrite split_app_sep, (split_without_sep comma piece Hpiece). }
  destruct Hsplit as [init ->].
  rewrite filter_app, filter_cons_True by exact Hblank.
  rewrite filter_nil, map_app. simpl. apply last_snoc.
Qed.

(** X8.  For an element that is kept and has a srcset, the URL that is
    appended is read off the last comma-separated piece of the srcset, as
    the text that stands before its first blank: the URL of the last
    candidate when the piece starts with it. *)
Theorem srcset_last_piece (img : Img) (s ss piece : string) :
  chosen_src img = Some s ->
  nonempty s = true ->
  is_irrelevant s = false ->
  srcset img = Some ss ->
  ss = piece \/ (exists pre, ss = pre +:+ String comma piece) ->
  all_chars (is_not comma) piece = true ->
  nonempty (strip piece) = true ->
  img_url img = Some (hd EmptyString (split space piece))
  /\ (forall u d,
        piece = u +:+ String space d ->
        all_chars (is_not space) u = true ->
        img_url img = Some u)
  /\ (all_chars (is_not space) piece = true -> img_url img = Some piece).
Proof.
  intros Hsrc Hs Hirr Hset Hss Hpiece Hblank.
  assert (Hurl : img_url img = Some (hd EmptyString (split space piece))).
  { unfold img_url. rewrite Hsrc, Hs, Hirr, Hset. simpl negb. cbv iota.
    assert (Hne : nonempty ss = true).
    { destruct Hss as [-> | [pre ->]].
      - destruct piece; [discriminate Hblank | reflexivity].
      - destruct pre; reflexivity. }
    now rewrite Hne, (srcset_candidates_last ss piece Hss Hpiece Hblank). }
  split; [exact Hurl|]. split.
  - intros u d -> Hu. rewrite Hurl, split_app_sep, (split_without_sep space u Hu).
    reflexivity.
  - intros Hp. now rewrite Hurl, (split_without_sep space piece Hp).
Qed.

Lemma srcset_last_piece_two_candidates :
  let img := img_with_srcset "a.jpg" "a.jpg 1x,b.jpg 2x" in
  chosen_src img = Some "a.jpg"
  /\ srcset img = Some ("a.jpg 1x" +:+ String comma "b.jpg 2x")
  /\ img_url img = Some "b.jpg".
Proof.
  cbv zeta. split; [reflexivity|]. split; [reflexivity|].
  apply (srcset_last_piece (img_with_srcset "a.jpg" "a.jpg 1x,b.jpg 2x")
                           "a.jpg" "a.jpg 1x,b.jpg 2x" "b.jpg 2x"
                           eq_refl eq_refl eq_refl eq_refl
                           (or_intror (ex_intro _ "a.jpg 1x" eq_refl)) eq_refl eq_refl)
    with (u := "b.jpg") (d := "2x"); reflexivity.
Defined.

End ImagesAgain.

(* ===================================================================== *)
(** * Further properties: the specifications block                        *)
(* ===================================================================== *)

Section Specs.
Import PyStr PyStrFacts.

(** The loop stops at the next heading: what follows it is not read. *)
Lemma gather_siblings_cut (parts : list string) (sibs1 sibs2 : list (string * string))
    (name html : string) :
  is_heading_name name = true ->
  gather_siblings parts (sibs1 ++ (name, html) :: sibs2) = gather_siblings parts sibs1.
Proof.
  intros Hname. revert parts. induction sibs1 as [|[n h] sibs1 IH]; intros parts.
  - simpl. now rewrite Hname.
  - simpl. destruct (is_heading_name n); [reflexivity|].
    destruct (12000 <? _)%Z; [reflexivity|]. apply IH.
Qed.

(** The loop only appends. *)
Lemma gather_siblings_extends (parts : list string) (sibs : list (string * string)) :
  exists more, gather_siblings parts sibs = parts ++ more.
Proof.
  revert parts. induction sibs as [|[n h] sibs IH]; intros parts.
  - exists []. simpl. now rewrite app_nil_r.
  - simpl. destruct (is_heading_name n); [exists []; now rewrite app_nil_r|].
    destruct (is_kept_name n).
    + destruct (12000 <? _)%Z; [now exists [h]|].
      destruct (IH (parts ++ [h])) as [more ->].
      exists (h :: more). now rewrite <- app_assoc.
    + destruct (12000 <? _)%Z; [exists []; now rewrite app_nil_r|]. apply IH.
Qed.

Lemma startswith_join (sep x : string) (more : list string) :
  startswith x (join sep (x :: more)) = true.
Proof.
  destruct more as [|y more]; simpl.
  - rewrite <- (append_empty x) at 2. apply startswith_app.
  - apply startswith_app.
Qed.

(** X9.  The specifications block is taken from the first matching
    heading only, and nothing that stands after the next h2, h3 or h4
    sibling enters it; a block that is returned is longer than 50
    characters and starts with the heading itself. *)
Theorem extract_specs_block_shape :
  (forall (h : string) (sibs1 sibs2 : list (string * string)) (name html : string)
          (others : list Heading),
      is_heading_name name = true ->
      extract_specs_block
        ({| heading_html := h; next_siblings := sibs1 ++ (name, html) :: sibs2 |} :: others)
      = extract_specs_block [{| heading_html := h; next_siblings := sibs1 |}])
  /\ (forall (headings : list Heading) (html : string),
        extract_specs_block headings = Some html ->
        (50 < Z.of_nat (String.length html))%Z
        /\ exists start others,
             headings = start :: others
             /\ startswith (heading_html start) html = true).
Proof.
  split.
  - intros h sibs1 sibs2 name html others Hname.
    unfold extract_specs_block. cbn [heading_html next_siblings].
    now rewrite (gather_siblings_cut _ _ _ _ _ Hname).
  - intros headings html. unfold extract_specs_block.
    destruct headings as [|start others]; [discriminate|].
    destruct (gather_siblings_extends [heading_html start] (next_siblings start))
      as [more ->].
    destruct (nonempty _ && _) eqn:E; [|discriminate].
    intros [= <-]. apply andb_true_iff in E as [_ E]. apply Z.ltb_lt in E.
    split; [exact E|]. exists start, others. split; [reflexivity|].
    apply (startswith_join newline (heading_html start) more).
Qed.

Lemma extract_specs_block_stops_at_heading :
  is_heading_name "h3" = true
  /\ extract_specs_block
       [{| heading_html := "<h2>Specifications of the Falcon 60V dual motor</h2>";
           next_siblings := [("p", "<p>Motor: 2 x 1000 W</p>")]
                            ++ ("h3", "<h3>Reviews</h3>") :: [("p", "<p>Great bike</p>")] |}]
     = extract_specs_block
         [{| heading_html := "<h2>Specifications of the Falcon 60V dual motor</h2>";
             next_siblings := [("p", "<p>Motor: 2 x 1000 W</p>")] |}].
Proof.
  split; [reflexivity|].
  apply (proj1 extract_specs_block_shape). reflexivity.
Defined.

End Specs.

(* ===================================================================== *)
(** * Further properties: [parse_product]                                 *)
(* ===================================================================== *)

Section ParseProduct.
Import PyStr PyStrFacts.

Variable repr_value : json -> string.

Lemma page_title_nonempty (soup : Soup) : nonempty (page_title soup) = true.
Proof.
  unfold page_title.
  assert (Hfall : forall t : option string,
             nonempty (match t with
                       | Some t => if nonempty t then t else FALLBACK_TITLE
                       | None => FALLBACK_TITLE
                       end) = true).
  { intros [t|]; [|reflexivity]. destruct (nonempty t) eqn:E; [exact E|reflexivity]. }
  apply Hfall.
Qed.

Lemma page_description_nonempty (soup : Soup) (json_ld : gmap string json) :
  nonempty (page_description repr_value soup json_ld) = true.
Proof.
  unfold page_description. cbv zeta.
  match goal with |- context [clean_html_text ?t] =>
    destruct (nonempty (clean_html_text t)) eqn:E; [exact E | reflexivity]
  end.
Qed.

Lemma extract_images_NoDup (imgs : list Img) : NoDup (extract_images imgs).
Proof.
  unfold extract_images. rewrite dedupe_first_occurrences.
  eapply sublist_NoDup; [apply NoDup_first_occurrences | apply sublist_take].
Qed.

Lemma extract_images_length (imgs : list Img) : length (extract_images imgs) <= 12.
Proof. unfold extract_images. rewrite length_take. lia. Qed.

(** [offers[0].get] fails exactly on a first offer that is no dict. *)
Lemma offers_price_raises (json_ld : gmap string json) (e : exn) :
  offers_price json_ld = inl e <->
  exists first rest,
    dict_get "offers" json_ld = JArr (first :: rest)
    /\ is_dict first = false
    /\ e = AttributeError "get".
Proof.
  unfold offers_price. split.
  - destruct (dict_get "offers" json_ld) as [| | | |items|members]; try discriminate.
    destruct items as [|first rest]; [discriminate|].
    destruct first; simpl; try discriminate; intros [= <-]; eexists _, _; eauto.
  - intros (first & rest & -> & Hfirst & ->). now destruct first.
Qed.

(** The form of the records of [parse_product]. *)
Lemma parse_product_invariant (url : string) (w w' : World) (p : ProductData) :
  parse_product repr_value url w = (inr (Some p), w') ->
  record_invariant p /\ files w' = files w.
Proof.
  intros Hrun. destruct (get_returns url w) as (res & w1 & Hget & Hfiles).
  unfold parse_product in Hrun. rewrite (bind_run _ _ _ _ _ Hget) in Hrun.
  destruct res as [e|[resp|]]; [discriminate | | discriminate].
  unfold bind, lift in Hrun.
  destruct (parsed resp) as [e|soup]; [discriminate|].
  destruct (offers_price _) as [e|price0]; [discriminate|].
  unfold ret in Hrun. injection Hrun as <- <-.
  split; [|exact Hfiles].
  unfold record_invariant. cbn.
  repeat match goal with |- _ /\ _ => split end; try reflexivity.
  - apply page_title_nonempty.
  - apply page_description_nonempty.
  - apply make_handle_chars.
  - apply make_handle_brand.
  - apply extract_images_NoDup.
  - apply extract_images_length.
Qed.

(** X10.  Every record that [parse_product] returns has a title and a
    body that are not empty, the handle derived from its title (made of
    [a-z0-9-] and mentioning the brand), at most 12 images without
    repetition, the fixed vendor and tags, and no compare-at price and no
    weight; and the files are what they were. *)
Theorem parse_product_record (url : string) (w w' : World) (p : ProductData) :
  parse_product repr_value url w = (inr (Some p), w') ->
  record_invariant p /\ files w' = files w.
Proof. apply parse_product_invariant. Qed.

(** X11.  The price step raises exactly when the offers of the JSON-LD
    data are a non-empty list whose first element is no dict, and what it
    raises is the [AttributeError] of the call of [get] on that element.
    Whenever a page with such offers has been fetched and parsed,
    [parse_product] raises that exception, whatever else the page holds,
    and leaves the world as [get] left it. *)
Theorem parse_product_raises_on_offer_list :
  (forall (json_ld : gmap string json) (e : exn),
      offers_price json_ld = inl e <->
      exists first rest,
        dict_get "offers" json_ld = JArr (first :: rest)
        /\ is_dict first = false
        /\ e = AttributeError "get")
  /\ (forall (url : string) (w w' : World) (resp : Response) (soup : Soup)
             (first : json) (rest : list json),
        get url w = (inr (Some resp), w') ->
        parsed resp = inr soup ->
        dict_get "offers" (extract_json_ld (ld_scripts soup)) = JArr (first :: rest) ->
        is_dict first = false ->
        parse_product repr_value url w = (inl (AttributeError "get"), w')).
Proof.
  split; [apply offers_price_raises|].
  intros url w w' resp soup first rest Hget Hparsed Hoffers Hfirst.
  unfold parse_product. rewrite (bind_inr _ _ _ _ _ Hget).
  unfold bind at 1, lift at 1. rewrite Hparsed.
  assert (Hp : offers_price (extract_json_ld (ld_scripts soup))
               = inl (AttributeError "get"))
    by (apply offers_price_raises; eauto).
  unfold bind, lift. now rewrite Hp.
Qed.

End ParseProduct.

(** The theorem on a page that is fetched and has a title, a price and an
    image. *)
Lemma parse_product_record_falcon :
  let page :=
    {| title_string := Some "Falcon 60V"; h1_text := None; ld_scripts := [];
       desc_container := None; spec_headings := [];
       meta_price_amount := Some (Some "1999.00"); meta_price := None;
       imgs := [plain_img "https://shop.example/falcon.jpg"] |} in
  exists p w',
    parse_product (fun _ => EmptyString) falcon_url (world_answering (ok_response page))
      = (inr (Some p), w')
    /\ record_invariant p
    /\ handle p = "philodo-falcon-60v".
Proof.
  cbv zeta. eexists _, _.
  match goal with |- ?run = _ /\ _ =>
    assert (Hrun : run = (inr (Some _), _)) by (vm_compute; reflexivity)
  end.
  split; [exact Hrun|].
  split; [exact (proj1 (parse_product_record _ _ _ _ _ Hrun)) | reflexivity].
Defined.

(* ===================================================================== *)
(** * Further properties: a whole run                                     *)
(* ===================================================================== *)

Section WholeRun.

Variable repr_value : json -> string.

Lemma sum_app (x y : list Q) :
  (fold_right Qplus 0 (x ++ y) == fold_right Qplus 0 x + fold_right Qplus 0 y)%Q.
Proof.
  induction x as [|q x IH]; simpl; [lra|]. rewrite IH. lra.
Qed.

Lemma sleep_total_app (a b : list event) :
  (sleep_total (a ++ b) == sleep_total a + sleep_total b)%Q.
Proof. unfold sleep_total. rewrite sleeps_in_app. apply sum_app. Qed.

Lemma sleep_total_printed (line : string) (tr : list event) :
  sleep_total (Printed line :: tr) = sleep_total tr.
Proof. reflexivity. Qed.

(** What one call of [get] adds to the trace. *)
Lemma get_frame (url : string) (w : World) :
  exists res w' new,
    get url w = (res, w')
    /\ trace w' = trace w ++ new
    /\ requests_in new <= 3
    /\ (sleep_total new <= 9)%Q.
Proof.
  destruct (get_attempts_spec url (seq 1 MAX_RETRIES) w)
    as (res & w' & new & k & Hrun & _ & _ & Htr & Hreq & _ & Hk & _ & Hr).
  change (length (seq 1 MAX_RETRIES)) with 3 in *.
  exists res, w', new. split; [exact Hrun|]. split; [exact Htr|].
  split; [lia|]. unfold sleep_total.
  destruct res as [e|[resp|]].
  - destruct Hr as (Hk1 & _ & ->).
    destruct k as [|[|[|[|k]]]]; try lia; apply Qle_bool_iff; reflexivity.
  - destruct Hr as (Hk1 & _ & _ & ->).
    destruct k as [|[|[|[|k]]]]; try lia; apply Qle_bool_iff; reflexivity.
  - destruct Hr as (_ & _ & ->). apply Qle_bool_iff. reflexivity.
Qed.

(** [parse_product] changes the world as its call of [get] does. *)
Lemma parse_product_world (url : string) (w : World) :
  (parse_product repr_value url w).2 = (get url w).2.
Proof.
  destruct (get_returns url w) as (res & w' & Hget & _).
  unfold parse_product. rewrite (bind_run _ _ _ _ _ Hget), Hget.
  destruct res as [e|[resp|]]; [reflexivity | | reflexivity].
  unfold bind, lift. destruct (parsed resp) as [e|soup]; [reflexivity|].
  now destruct (offers_price _).
Qed.

Lemma with_trace_trace (w : World) (tr : list event) : trace (with_trace w tr) = tr.
Proof. reflexivity. Qed.

Lemma bound_succ (n : nat) :
  (9 * inject_Z (Z.of_nat (S n)) == 9 + 9 * inject_Z (Z.of_nat n))%Q.
Proof.
  rewrite Nat2Z.inj_succ. unfold Z.succ. rewrite inject_Z_plus.
  change (inject_Z 1) with 1%Q. ring.
Qed.

(** One turn of the loop of [main], by what [parse_product] gives. *)
Lemma scrape_turn (url : string) (urls : list string) (products : list ProductData)
    (w w1 : World) (res : exn + option ProductData) :
  parse_product repr_value url
    (with_trace w (trace w ++ [Printed ("[INFO] Scraping: " +:+ url)])) = (res, w1) ->
  scrape repr_value (url :: urls) products w =
  match res with
  | inl e => (inl e, w1)
  | inr (Some p) =>
      scrape repr_value urls (products ++ [p])
        (with_trace w1
           (trace w1 ++ [Printed ("[OK] Parsed: " +:+ title p +:+ " ("
                                  +:+ PyStr.of_nat (length (images p)) +:+ " images)")]))
  | inr None =>
      scrape repr_value urls products
        (with_trace w1 (trace w1 ++ [Printed ("[FAIL] Could not parse: " +:+ url)]))
  end.
Proof.
  intros Hparse. cbn [scrape]. rewrite (bind_inr _ _ _ _ _ (print_run _ w)).
  destruct res as [e|[p|]].
  - now rewrite (bind_inl _ _ _ _ _ Hparse).
  - rewrite (bind_inr _ _ _ _ _ Hparse). now rewrite (bind_inr _ _ _ _ _ (print_run _ w1)).
  - rewrite (bind_inr _ _ _ _ _ Hparse). now rewrite (bind_inr _ _ _ _ _ (print_run _ w1)).
Qed.

Lemma requests_in_printed (line : string) (tr : list event) :
  requests_in (Printed line :: tr) = requests_in tr.
Proof. reflexivity. Qed.

Lemma bound_nonneg (n : nat) : (0 <= 9 * inject_Z (Z.of_nat n))%Q.
Proof.
  apply Qmult_le_0_compat; [lra|].
  change 0%Q with (inject_Z 0). rewrite <- Zle_Qle. lia.
Qed.

(** What the loop of [main] adds to the trace, and the products it adds. *)
Lemma scrape_frame (urls : list string) (products : list ProductData) (w : World) :
  exists new,
    trace (scrape repr_value urls products w).2 = trace w ++ new
    /\ requests_in new <= 3 * length urls
    /\ (sleep_total new <= 9 * inject_Z (Z.of_nat (length urls)))%Q
    /\ forall ps, (scrape repr_value urls products w).1 = inr ps ->
         exists more,
           ps = products ++ more
           /\ length more <= length urls
           /\ Forall record_invariant more.
Proof.
  revert products w. induction urls as [|url urls IH]; intros products w.
  - exists []. cbn [scrape ret fst snd length]. rewrite app_nil_r.
    split; [reflexivity|]. split; [apply Nat.le_refl|].
    split; [apply Qle_bool_iff; reflexivity|].
    intros ps [= <-]. exists []. rewrite app_nil_r.
    split; [reflexivity|]. split; [apply Nat.le_refl | constructor].
  - set (info := Printed ("[INFO] Scraping: " +:+ url)).
    set (w0 := with_trace w (trace w ++ [info])).
    pose proof (parse_product_world url w0) as Hworld.
    destruct (get_frame url w0) as (r & wg & newg & Hget & Htrg & Hreqg & Hsleepg).
    rewrite Hget in Hworld. cbn [snd] in Hworld.
    destruct (parse_product repr_value url w0) as [res w1] eqn:Hparse.
    cbn [snd] in Hworld. subst w1.
    rewrite (scrape_turn url urls products w wg res Hparse).
    pose proof (bound_nonneg (length urls)) as Hpos.
    pose proof (bound_succ (length urls)) as Hsucc.
    cbn [length].
    assert (Htr0 : trace wg = trace w ++ info :: newg)
      by (rewrite Htrg; unfold w0; rewrite with_trace_trace, <- app_assoc; reflexivity).
    destruct res as [e|[p|]].
    + exists (info :: newg). cbn [fst snd].
      split; [exact Htr0|]. split; [|split; [|intros ps Hps; discriminate Hps]].
      * unfold info. rewrite requests_in_printed. lia.
      * unfold info. rewrite sleep_total_printed, Hsucc. lra.
    + match goal with |- context [scrape repr_value urls ?ps ?w2] =>
        destruct (IH ps w2) as (newr & Htr & Hreq & Hsleep & Hps)
      end.
      destruct (parse_product_invariant repr_value url w0 wg p Hparse) as [Hinv _].
      rewrite with_trace_trace in Htr.
      match type of Htr with _ = (_ ++ [?ok]) ++ _ =>
        exists (info :: newg ++ ok :: newr)
      end.
      split; [|split; [|split]].
      * rewrite Htr, Htr0, <- !app_assoc. reflexivity.
      * unfold info. rewrite requests_in_printed, requests_in_app, requests_in_printed.
        lia.
      * unfold info.
        rewrite sleep_total_printed, sleep_total_app, sleep_total_printed, Hsucc. lra.
      * intros ps Hres. destruct (Hps ps Hres) as (more & -> & Hlen & Hall).
        exists (p :: more). rewrite <- app_assoc.
        split; [reflexivity|]. split; [cbn [length]; lia | now constructor].
    + match goal with |- context [scrape repr_value urls ?ps ?w2] =>
        destruct (IH ps w2) as (newr & Htr & Hreq & Hsleep & Hps)
      end.
      rewrite with_trace_trace in Htr.
      match type of Htr with _ = (_ ++ [?fail]) ++ _ =>
        exists (info :: newg ++ fail :: newr)
      end.
      split; [|split; [|split]].
      * rewrite Htr, Htr0, <- !app_assoc. reflexivity.
      * unfold info. rewrite requests_in_printed, requests_in_app, requests_in_printed.
        lia.
      * unfold info.
        rewrite sleep_total_printed, sleep_total_app, sleep_total_printed, Hsucc. lra.
      * intros ps Hres. destruct (Hps ps Hres) as (more & -> & Hlen & Hall).
        exists more. split; [reflexivity|]. split; [cbn [length]; lia | exact Hall].
Qed.

(** [main] by the outcome of its loop, for a list of URLs that is not
    empty. *)
Lemma main_run (url : string) (urls : list string) (w : World) :
  let run := scrape repr_value (url :: urls) [] w in
  match run.1 with
  | inl e => main repr_value (url :: urls) w = (inl e, run.2)
  | inr [] =>
      main repr_value (url :: urls) w =
      (inr tt, with_trace run.2
                 (trace run.2 ++ [Printed "[ERROR] No products parsed. Exiting."]))
  | inr (p :: ps) =>
      exists w2 line,
        write_csv (p :: ps) run.2 = (inr tt, w2)
        /\ main repr_value (url :: urls) w
           = (inr tt, with_trace w2 (trace w2 ++ [Printed line]))
  end.
Proof.
  cbv zeta. destruct (scrape repr_value (url :: urls) [] w) as [[e|[|p ps]] w1] eqn:Hrun;
    cbn [fst snd]; unfold main.
  - now rewrite (bind_inl _ _ _ _ _ Hrun).
  - now rewrite (bind_inr _ _ _ _ _ Hrun).
  - rewrite (bind_inr _ _ _ _ _ Hrun).
    destruct (write_csv_run (p :: ps) w1) as (w2 & Hw & _).
    exists w2. eexists. split; [exact Hw|].
    now rewrite (bind_inr _ _ _ _ _ Hw).
Qed.

(** X12.  A run of [main] on [n] URLs calls [requests.get] at most [3 n]
    times and sleeps at most [9 n] seconds in all, whether it ends
    normally or with an exception. *)
Theorem main_resource_bounds (urls : list string) (w : World) :
  exists new,
    trace (main repr_value urls w).2 = trace w ++ new
    /\ requests_in new <= 3 * length urls
    /\ (sleep_total new <= 9 * inject_Z (Z.of_nat (length urls)))%Q.
Proof.
  destruct urls as [|url urls].
  - eexists [Printed _; Printed _]. split; [|split].
    + cbn. rewrite <- app_assoc. reflexivity.
    + apply Nat.le_refl.
    + apply Qle_bool_iff. reflexivity.
  - destruct (scrape_frame (url :: urls) [] w) as (new & Htr & Hreq & Hsleep & _).
    pose proof (main_run url urls w) as Hmain. cbv zeta in Hmain.
    destruct (scrape repr_value (url :: urls) [] w) as [[e|[|p ps]] w1];
      cbn [fst snd] in *.
    + rewrite Hmain. exists new. now repeat split.
    + rewrite Hmain. eexists (new ++ [Printed _]). split; [|split].
      * cbn [snd]. rewrite with_trace_trace, Htr, <- app_assoc. reflexivity.
      * rewrite requests_in_app, requests_in_printed.
        change (requests_in []) with 0. lia.
      * rewrite sleep_total_app.
        change (sleep_total [Printed "[ERROR] No products parsed. Exiting."]) with 0%Q. lra.
    + destruct Hmain as (w2 & line & Hw & ->).
      destruct (write_csv_run (p :: ps) w1) as (w2' & Hw' & Htr2 & _).
      rewrite Hw in Hw'. injection Hw' as <-.
      exists (new ++ [Printed line]). split; [|split].
      * cbn [snd]. rewrite with_trace_trace, Htr2, Htr, <- app_assoc. reflexivity.
      * rewrite requests_in_app, requests_in_printed.
        change (requests_in []) with 0. lia.
      * rewrite sleep_total_app. change (sleep_total [Printed line]) with 0%Q. lra.
Qed.

(** X13.  The loop of [main] collects at most one record per URL, and
    every record it collects has the form of the records of
    [parse_product] (title and body not empty, handle of its title, at
    most 12 distinct images, fixed vendor and tags). *)
Theorem scrape_collects_records (urls : list string) (w w' : World)
    (products : list ProductData) :
  scrape repr_value urls [] w = (inr products, w') ->
  length products <= length urls /\ Forall record_invariant products.
Proof.
  intros Hrun.
  destruct (scrape_frame urls [] w) as (new & _ & _ & _ & Hps).
  rewrite Hrun in Hps. destruct (Hps products eq_refl) as (more & -> & Hlen & Hall).
  now split.
Qed.

(** X14.  [main] creates or changes no file but [shopify_products.csv]:
    every other file is what it was, whatever the URLs and the answers. *)
Theorem main_touches_only_output (urls : list string) (w : World) (name : string) :
  name <> OUTPUT_CSV ->
  files (main repr_value urls w).2 !! name = files w !! name.
Proof.
  intros Hname. destruct urls as [|url urls]; [reflexivity|].
  pose proof (scrape_files repr_value (url :: urls) [] w) as Hsf.
  pose proof (main_run url urls w) as Hmain. cbv zeta in Hmain.
  destruct (scrape repr_value (url :: urls) [] w) as [[e|[|p ps]] w1];
    cbn [fst snd] in *.
  - rewrite Hmain. cbn [snd]. now rewrite Hsf.
  - rewrite Hmain. cbn [snd]. now rewrite <- Hsf.
  - destruct Hmain as (w2 & line & Hw & ->).
    destruct (write_csv_run (p :: ps) w1) as (w2' & Hw' & _ & Hfiles).
    rewrite Hw in Hw'. injection Hw' as <-.
    cbn [snd]. change (files (with_trace w2 _)) with (files w2).
    rewrite Hfiles, Hsf. apply lookup_insert_ne. congruence.
Qed.

(** X15.  Started without argument, the script takes the empty list
    [PRODUCT_URLS]: it prints the two lines of the usage hint and stops,
    without any request and without touching a file; with arguments it
    runs [main] on them. *)
Theorem run_script_without_argument :
  (forall (argv : list string) (w : World),
      length argv <= 1 ->
      exists w',
        run_script repr_value argv w = (inr tt, w')
        /\ trace w' =
             trace w ++
             [ Printed "[INFO] No URLs provided in PRODUCT_URLS. Pass URLs as CLI args or edit the script.";
               Printed "Usage: python philodo_to_shopify.py https://.../falcon https://.../forester" ]
        /\ requests_made w' = requests_made w
        /\ files w' = files w)
  /\ (forall (prog url : string) (more : list string),
        run_script repr_value (prog :: url :: more) = main repr_value (url :: more)).
Proof.
  split.
  - intros argv w Hlen.
    assert (Hrun : run_script repr_value argv = main repr_value []).
    { destruct argv as [|prog [|url more]]; [reflexivity | reflexivity |].
      simpl in Hlen. lia. }
    rewrite Hrun. eexists. split; [reflexivity|]. cbn.
    split; [now rewrite <- app_assoc|]. now split.
  - intros prog url more. reflexivity.
Qed.

End WholeRun.

(** The theorem on the loop, on a site that serves the same product page
    for two URLs: two records are collected. *)
Lemma scrape_collects_two_records :
  exists p1 p2 w',
    scrape (fun _ => EmptyString) [falcon_url; forester_url] []
           (world_answering (ok_response falcon_page)) = (inr [p1; p2], w')
    /\ length [p1; p2] <= length [falcon_url; forester_url]
    /\ Forall record_invariant [p1; p2]
    /\ handle p1 = "philodo-falcon-60v"
    /\ images p1 = ["https://shop.example/falcon.jpg";
                    "https://shop.example/falcon-side.jpg"].
Proof.
  eexists _, _, _.
  match goal with |- ?run = _ /\ _ =>
    assert (Hrun : run = (inr [_; _], _)) by (vm_compute; reflexivity)
  end.
  destruct (scrape_collects_records _ _ _ _ _ Hrun) as [Hlen Hall].
  split; [exact Hrun|]. split; [exact Hlen|]. split; [exact Hall|].
  split; reflexivity.
Defined.

Lemma main_leaves_other_files_alone :
  "notes.txt" <> OUTPUT_CSV
  /\ files (main (fun _ => EmptyString) [falcon_url]
                 (world_answering (ok_response empty_page))).2 !! "notes.txt" = None.
Proof.
  assert (Hne : "notes.txt" <> OUTPUT_CSV) by discriminate.
  split; [exact Hne|].
  exact (main_touches_only_output (fun _ => EmptyString) [falcon_url]
           (world_answering (ok_response empty_page)) "notes.txt" Hne).
Defined.

Lemma run_script_with_its_name_only :
  exists w',
    length ["philodo_to_shopify.py"] <= 1
    /\ run_script (fun _ => EmptyString) ["philodo_to_shopify.py"] down = (inr tt, w')
    /\ requests_made w' = requests_made down
    /\ files w' = files down.
Proof.
  assert (Hlen : length ["philodo_to_shopify.py"] <= 1) by (simpl; lia).
  destruct (proj1 (run_script_without_argument (fun _ => EmptyString))
                  ["philodo_to_shopify.py"] down Hlen)
    as (w' & Hrun & _ & Hreq & Hfiles).
  exists w'. exact (conj Hlen (conj Hrun (conj Hreq Hfiles))).
Defined.

(** The theorem on the price step, on a page whose list of offers holds
    [null]. *)
Lemma parse_product_raises_on_null_offer :
  exists resp w',
    get forester_url (world_answering (ok_response page_with_null_offer))
      = (inr (Some resp), w')
    /\ parsed resp = inr page_with_null_offer
    /\ dict_get "offers" (extract_json_ld (ld_scripts page_with_null_offer)) = JArr [JNull]
    /\ is_dict JNull = false
    /\ parse_product (fun _ => EmptyString) forester_url
         (world_answering (ok_response page_with_null_offer))
       = (inl (AttributeError "get"), w').
Proof.
  eexists _, _.
  match goal with |- ?run = _ /\ _ =>
    assert (Hget : run = (inr (Some _), _)) by (vm_compute; reflexivity)
  end.
  assert (Hoffers : dict_get "offers" (extract_json_ld (ld_scripts page_with_null_offer))
                    = JArr [JNull]) by (vm_compute; reflexivity).
  split; [exact Hget|]. split; [reflexivity|]. split; [exact Hoffers|].
  split; [reflexivity|].
  exact (proj2 (parse_product_raises_on_offer_list (fun _ => EmptyString))
               _ _ _ _ _ _ _ Hget eq_refl Hoffers eq_refl).
Defined.

(** Two runs that end with an exception of a library: the parser rejects
    the markup of the page; [requests.get] raises an exception that [get]
    does not catch.  In both, [main] stops at the first URL and writes no
    file. *)
Example main_stops_on_rejected_markup :
  let w := world_answering rejected_markup in
  (main (fun _ => EmptyString) [falcon_url; forester_url] w).1 = inl ParserRejectedMarkup
  /\ requests_in (trace (main (fun _ => EmptyString) [falcon_url; forester_url] w).2) = 1
  /\ files (main (fun _ => EmptyString) [falcon_url; forester_url] w).2 = ∅.
Proof. cbv zeta. split; [|split]; vm_compute; reflexivity. Qed.

Example get_lets_other_exceptions_through :
  let w := world_answering bad_location in
  (get falcon_url w).1 = inl (LibraryError "LocationParseError")
  /\ trace (get falcon_url w).2 = [Requested falcon_url]
  /\ (main (fun _ => EmptyString) [falcon_url; forester_url] w).1
     = inl (LibraryError "LocationParseError")
  /\ files (main (fun _ => EmptyString) [falcon_url; forester_url] w).2 = ∅.
Proof. cbv zeta. split; [|split; [|split]]; vm_compute; reflexivity. Qed.
